(** * Events API: validation, record models, store gateway and error mapping

    A shallow embedding of [backend/app]: [validators.py], [exceptions.py],
    [models.py], [database.py] and the routes of [main.py].

    Conventions.
    - A Python [str] is a [string]; its characters are code points below 256.
    - A Python [int] is a [Z]; [len] is [String.length] or [length].
    - A raised exception is the [Raise] case of [result].
    - The DynamoDB table is a finite map from the key [eventId] to the item
      stored under it; every gateway operation takes the store and returns
      the store it leaves behind.
    - [datetime.utcnow()] and [uuid.uuid4()] are read from the environment:
      the operations that use them take the timestamp and the identifier as
      arguments. *)

From Stdlib Require Import ZArith Ascii String List Lia ssreflect.
From stdpp Require Import base option list gmap strings pretty fin_maps.

Set Warnings "-register-all,-rewrite-rw".
Local Open Scope Z_scope.

(* ===================================================================== *)
(** ** Python strings *)
(* ===================================================================== *)

(** [str.isspace] on one character: the ASCII controls 0x09-0x0D and
    0x1C-0x1F, the space, and the Latin-1 characters 0x85 and 0xA0. *)
Definition isspace (c : ascii) : bool :=
  let n := nat_of_ascii c in
  ((9 <=? n)%nat && (n <=? 13)%nat) || ((28 <=? n)%nat && (n <=? 32)%nat)
  || (n =? 133)%nat || (n =? 160)%nat.

Fixpoint lstrip (s : string) : string :=
  match s with
  | EmptyString => EmptyString
  | String c r => if isspace c then lstrip r else s
  end.

Fixpoint rstrip (s : string) : string :=
  match s with
  | EmptyString => EmptyString
  | String c r =>
      match rstrip r with
      | EmptyString => if isspace c then EmptyString else String c EmptyString
      | r' => String c r'
      end
  end.

(** [s.strip()] *)
Definition strip (s : string) : string := rstrip (lstrip s).

(** Truth value of a [str]: the empty string is false. *)
Definition str_truthy (s : string) : bool :=
  match s with EmptyString => false | _ => true end.

(** [len(s)] *)
Definition len (s : string) : Z := Z.of_nat (String.length s).

(** [s.replace('Z', '+00:00')] *)
Fixpoint replace_Z (s : string) : string :=
  match s with
  | EmptyString => EmptyString
  | String c r =>
      if Ascii.eqb c "Z"%char then String.append "+00:00" (replace_Z r)
      else String c (replace_Z r)
  end.

(** [sep.join(l)] *)
Fixpoint join (sep : string) (l : list string) : string :=
  match l with
  | [] => EmptyString
  | [x] => x
  | x :: r => String.append x (String.append sep (join sep r))
  end.

(** First and last character are not whitespace (true of the empty string). *)
Definition head_clean (s : string) : bool :=
  match s with EmptyString => true | String c _ => negb (isspace c) end.

Fixpoint last_clean (s : string) : bool :=
  match s with
  | EmptyString => true
  | String c EmptyString => negb (isspace c)
  | String _ r => last_clean r
  end.

Definition no_outer_space (s : string) : bool := head_clean s && last_clean s.

(** [x in l] for a list of strings. *)
Definition str_in (x : string) (l : list string) : bool :=
  existsb (String.eqb x) l.
Global Arguments str_in : simpl never.

(* ===================================================================== *)
(** ** exceptions.py *)
(* ===================================================================== *)

(** One entry of [RequestValidationError.errors()]. *)
Record error_detail := ErrorDetail {
  loc : list string;
  msg : string;
  type_ : string
}.

(** The exceptions the application meets: the two botocore families the
    gateway catches, the three classes of [exceptions.py], the framework's
    [RequestValidationError], and [Exception] for any other. *)
Inductive exn :=
| ClientError (Code Message : string)
| BotoCoreError (text : string)
| Exception (text : string)
| EventNotFoundException (event_id : string)
| DatabaseException (message : string) (original_error : option exn)
| ValidationException (message : string) (field : option string)
| RequestValidationError (errors : list error_detail).

Inductive result (A : Type) :=
| Ok (a : A)
| Raise (e : exn).
Arguments Ok {A} a.
Arguments Raise {A} e.

(* ===================================================================== *)
(** ** validators.py *)
(* ===================================================================== *)

(** Library functions the application calls and the repository does not
    define: whether [datetime.fromisoformat] and
    [datetime.strptime(_, '%Y-%m-%d')] accept a string, and the integer
    pydantic reads from a string given for an [int] field. *)
Class Library := {
  fromisoformat : string → bool;
  strptime_ymd : string → bool;
  int_from_str : string → option Z
}.

Definition validate_date_format `{!Library} (date_str : string) : result bool :=
  if fromisoformat (replace_Z date_str) then Ok true
  else Raise (ValidationException
                "Date must be in ISO format (e.g., 2024-06-15T09:00:00Z)"
                (Some "date")).

Definition valid_statuses : list string :=
  ["draft"; "published"; "cancelled"; "completed"].

Definition validate_status (status : string) : result bool :=
  if negb (str_in status valid_statuses) then
    Raise (ValidationException
             (String.append "Status must be one of: " (join ", " valid_statuses))
             (Some "status"))
  else Ok true.

Definition validate_capacity (capacity min_val max_val : Z) : result bool :=
  if capacity <? min_val then
    Raise (ValidationException
             (String.append "Capacity must be at least " (pretty min_val))
             (Some "capacity"))
  else if capacity >? max_val then
    Raise (ValidationException
             (String.append "Capacity cannot exceed " (pretty max_val))
             (Some "capacity"))
  else Ok true.

(** [max_length: Optional[int] = None]; [if max_length and ...] is false
    for [None] and for [0]. *)
Definition sanitize_string (value : string) (max_length : option Z)
    : result string :=
  let sanitized := strip value in
  if negb (str_truthy sanitized) then
    Raise (ValidationException
             "Field cannot be empty or contain only whitespace" None)
  else
    match max_length with
    | Some m =>
        if negb (m =? 0) && (len sanitized >? m) then
          Raise (ValidationException
                   (String.append "Field exceeds maximum length of "
                      (String.append (pretty m) " characters")) None)
        else Ok sanitized
    | None => Ok sanitized
    end.

(* ===================================================================== *)
(** ** The DynamoDB table behind [database.py] *)
(* ===================================================================== *)

(** Attribute values: the gateway only handles strings, integers and
    [None]. *)
Inductive value :=
| VNone
| VStr (s : string)
| VInt (n : Z).

Global Instance value_eq_dec : EqDecision value.
Proof. solve_decision. Defined.

(** Truth value of a Python object. *)
Definition truthy (v : value) : bool :=
  match v with
  | VNone => false
  | VStr s => str_truthy s
  | VInt n => negb (n =? 0)
  end.

(** An item of the table, and a [Dict[str, Any]] in insertion order. *)
Abbreviation Item := (gmap string value).
Abbreviation Dict := (list (string * value)).

(** [d.pop(k, None)]: the value under [k] ([None] when absent) and the
    dictionary without that key. *)
Definition dict_pop (k : string) (d : Dict) : value * Dict :=
  (match List.find (λ kv, String.eqb (fst kv) k) d with
   | Some kv => snd kv
   | None => VNone
   end,
   List.filter (λ kv, negb (String.eqb (fst kv) k)) d).

(** [{**base, **d}]: the entries of [d] written over [base], later entries
    of [d] over earlier ones. *)
Definition dict_over {A} (d : list (string * A)) (base : gmap string A)
    : gmap string A :=
  fold_left (λ m kv, <[fst kv := snd kv]> m) d base.
Global Arguments dict_over : simpl never.

Inductive backend_call :=
| PutItem | GetItem | Scan | UpdateItem | DeleteItem.

(** The table. [items] maps a key to the item stored under it; the item
    read back always carries its key attribute (see [current]).
    [page_cap] is the largest number of items one scan page holds (the
    store's page size limit). [fault], when set, is the error every request
    meets (outage, throttling, ...). [calls] records the requests issued,
    oldest first. *)
Record Store := mkStore {
  items : gmap string Item;
  page_cap : nat;
  fault : option exn;
  calls : list backend_call
}.

Definition log (c : backend_call) (st : Store) : Store :=
  mkStore (items st) (page_cap st) (fault st) (calls st ++ [c]).

Definition set_items (m : gmap string Item) (st : Store) : Store :=
  mkStore m (page_cap st) (fault st) (calls st).

(** The item stored under key [k], with its key attribute. *)
Definition with_key (k : string) (it : Item) : Item := <["eventId" := VStr k]> it.

Definition current (st : Store) (k : string) : option Item :=
  with_key k <$> items st !! k.

(** The whole table in scan order. *)
Definition table_scan (st : Store) : list Item :=
  (λ kv, with_key (fst kv) (snd kv)) <$> map_to_list (items st).

(** The two condition expressions the gateway uses. *)
Inductive condition :=
| attribute_not_exists (attr : string)
| attribute_exists (attr : string).

Definition condition_holds (c : condition) (cur : option Item) : bool :=
  match c, cur with
  | attribute_not_exists a, Some it => bool_decide (it !! a = None)
  | attribute_not_exists _, None => true
  | attribute_exists a, Some it => bool_decide (is_Some (it !! a))
  | attribute_exists _, None => false
  end.
Global Arguments condition_holds : simpl never.

Definition conditional_check_failed : exn :=
  ClientError "ConditionalCheckFailedException" "The conditional request failed".

Definition validation_error (m : string) : exn :=
  ClientError "ValidationException" m.

(** [table.put_item(Item=item, ConditionExpression=cond)]. The key attribute
    [eventId] of the item must be a string. *)
Definition put_item (item : Item) (cond : condition) (st : Store)
    : (exn + unit) * Store :=
  let st := log PutItem st in
  match fault st with
  | Some e => (inl e, st)
  | None =>
      match item !! "eventId" with
      | Some (VStr k) =>
          if condition_holds cond (current st k)
          then (inr tt, set_items (<[k := item]> (items st)) st)
          else (inl conditional_check_failed, st)
      | _ => (inl (validation_error
                     "One or more parameter values were invalid: key element eventId"),
              st)
      end
  end.

(** [table.get_item(Key={'eventId': k}, ConsistentRead=True)]: the response's
    ['Item'], absent when nothing is stored under the key. *)
Definition get_item (k : string) (st : Store)
    : (exn + option Item) * Store :=
  let st := log GetItem st in
  match fault st with
  | Some e => (inl e, st)
  | None => (inr (current st k), st)
  end.

(** [table.delete_item(Key={'eventId': k}, ConditionExpression=cond)] *)
Definition delete_item (k : string) (cond : condition) (st : Store)
    : (exn + unit) * Store :=
  let st := log DeleteItem st in
  match fault st with
  | Some e => (inl e, st)
  | None =>
      if condition_holds cond (current st k)
      then (inr tt, set_items (delete k (items st)) st)
      else (inl conditional_check_failed, st)
  end.

(** The keyword arguments of [table.update_item]. The update expression
    ["SET a = :a, #b = :b"] is kept as its list of clauses
    [(a, :a); (#b, :b)]. *)
Record update_kwargs := mkUpdate {
  Key : string;
  UpdateExpression : list (string * string);
  ExpressionAttributeValues : gmap string value;
  ConditionExpression : condition;
  ExpressionAttributeNames : gmap string string
}.

(** The attribute a clause's left side names: a [#alias] goes through
    [ExpressionAttributeNames]. *)
Definition resolve_name (names : gmap string string) (ref : string)
    : option string :=
  match ref with
  | String "#" _ => names !! ref
  | _ => Some ref
  end.

(** The assignments of a SET expression, when it is well formed: every
    alias and placeholder is defined, the key attribute is not assigned and
    no attribute is assigned twice. *)
Fixpoint resolve_clauses (names : gmap string string)
    (vals : gmap string value) (clauses : list (string * string))
    : option (list (string * value)) :=
  match clauses with
  | [] => Some []
  | (ref, ph) :: rest =>
      match resolve_name names ref, vals !! ph, resolve_clauses names vals rest with
      | Some a, Some v, Some r =>
          if String.eqb a "eventId" || str_in a (fst <$> r) then None
          else Some ((a, v) :: r)
      | _, _, _ => None
      end
  end.

(** [table.update_item] with [ReturnValues='ALL_NEW']: the
    response's ['Attributes']. The expression is checked before the
    condition. *)
Definition update_item (kw : update_kwargs) (st : Store)
    : (exn + option Item) * Store :=
  let st := log UpdateItem st in
  match fault st with
  | Some e => (inl e, st)
  | None =>
      match resolve_clauses (ExpressionAttributeNames kw)
              (ExpressionAttributeValues kw) (UpdateExpression kw) with
      | None => (inl (validation_error "Invalid UpdateExpression"), st)
      | Some assignments =>
          if condition_holds (ConditionExpression kw) (current st (Key kw))
          then
            let new := dict_over assignments
                         (with_key (Key kw) (default ∅ (items st !! Key kw))) in
            (inr (Some new), set_items (<[Key kw := new]> (items st)) st)
          else (inl conditional_check_failed, st)
      end
  end.

(** The keyword arguments of [table.scan] and its response. The
    continuation token ([LastEvaluatedKey], [ExclusiveStartKey]) is the
    position reached in scan order. *)
Record scan_kwargs := mkScan {
  Limit : option Z;
  ExclusiveStartKey : option nat
}.

Record scan_response := mkScanResponse {
  Items : list Item;
  LastEvaluatedKey : option nat
}.

(** [table.scan]: one page, of at most [Limit] items and at most
    [page_cap] items. The response has a [LastEvaluatedKey] when the page
    stopped at one of these bounds instead of at the end of the table. *)
Definition scan (kw : scan_kwargs) (st : Store)
    : (exn + scan_response) * Store :=
  let st := log Scan st in
  match fault st with
  | Some e => (inl e, st)
  | None =>
      if match Limit kw with Some n => n <? 1 | None => false end
      then (inl (validation_error "Limit must be greater than or equal to 1"), st)
      else
        let start := default 0%nat (ExclusiveStartKey kw) in
        let rest := drop start (table_scan st) in
        let cap := match Limit kw with
                   | Some n => Nat.min (Z.to_nat n) (page_cap st)
                   | None => page_cap st
                   end in
        let page := take cap rest in
        (inr (mkScanResponse page
                (if (cap <=? length rest)%nat
                 then Some (start + length page)%nat else None)),
         st)
  end.

(* ===================================================================== *)
(** ** database.py: [DynamoDBClient] *)
(* ===================================================================== *)

(** [not event_id or not event_id.strip()] *)
Definition blank_id (event_id : string) : bool :=
  negb (str_truthy event_id) || negb (str_truthy (strip event_id)).

(** [create_event]; [uuid4] and [utcnow] are the values [uuid.uuid4()] and
    [datetime.utcnow().isoformat() + 'Z'] evaluate to. *)
Definition create_event (uuid4 utcnow : string) (event_data : Dict)
    (st : Store) : result Item * Store :=
  let '(popped, event_data) := dict_pop "eventId" event_data in
  let event_id := if truthy popped then popped else VStr uuid4 in
  let timestamp := utcnow in
  let item :=
    dict_over event_data
      (<["updatedAt" := VStr timestamp]>
         (<["createdAt" := VStr timestamp]>
            (<["eventId" := event_id]> ∅))) in
  match put_item item (attribute_not_exists "eventId") st with
  | (inr _, st) => (Ok item, st)
  | (inl (ClientError error_code m as e), st) =>
      if String.eqb error_code "ConditionalCheckFailedException"
      then (Raise (DatabaseException "Event with this ID already exists" None), st)
      else (Raise (DatabaseException
                     (String.append "Failed to create event: " m) (Some e)), st)
  | (inl (BotoCoreError _ as e), st) =>
      (Raise (DatabaseException "Database connection error" (Some e)), st)
  | (inl e, st) => (Raise e, st)
  end.

Definition get_event (event_id : string) (st : Store)
    : result (option Item) * Store :=
  if blank_id event_id then
    (Raise (DatabaseException "Event ID cannot be empty" None), st)
  else
    match get_item event_id st with
    | (inr item, st) => (Ok item, st)
    | (inl (ClientError _ m as e), st) =>
        (Raise (DatabaseException
                  (String.append "Failed to retrieve event: " m) (Some e)), st)
    | (inl (BotoCoreError _ as e), st) =>
        (Raise (DatabaseException "Database connection error" (Some e)), st)
    | (inl e, st) => (Raise e, st)
    end.

(** [if limit:] *)
Definition limit_given (limit : option Z) : bool :=
  match limit with Some n => negb (n =? 0) | None => false end.

(** The pagination loop of [list_events], one iteration per unit of fuel;
    [None] when the fuel runs out before the loop ends. *)
Fixpoint list_events_loop (fuel : nat) (limit : option Z)
    (response : scan_response) (acc : list Item) (st : Store)
    : option ((exn + list Item) * Store) :=
  match fuel with
  | O => None
  | S fuel =>
      match LastEvaluatedKey response with
      | Some lek =>
          if negb (limit_given limit)
             || (Z.of_nat (length acc) <? default 0 limit)
          then
            let kw := mkScan
                        (if limit_given limit
                         then Some (default 0 limit - Z.of_nat (length acc))
                         else None)
                        (Some lek) in
            match scan kw st with
            | (inr response, st) =>
                list_events_loop fuel limit response (acc ++ Items response) st
            | (inl e, st) => Some (inl e, st)
            end
          else Some (inr acc, st)
      | None => Some (inr acc, st)
      end
  end.

Definition list_events (fuel : nat) (limit : option Z) (st : Store)
    : option (result (list Item) * Store) :=
  let kw := mkScan (if limit_given limit then limit else None) None in
  let outcome :=
    match scan kw st with
    | (inr response, st) => list_events_loop fuel limit response (Items response) st
    | (inl e, st) => Some (inl e, st)
    end in
  match outcome with
  | None => None
  | Some (inr l, st) => Some (Ok l, st)
  | Some (inl (ClientError _ m as e), st) =>
      Some (Raise (DatabaseException
                     (String.append "Failed to list events: " m) (Some e)), st)
  | Some (inl (BotoCoreError _ as e), st) =>
      Some (Raise (DatabaseException "Database connection error" (Some e)), st)
  | Some (inl e, st) => Some (Raise e, st)
  end.

(** The loop of [update_event] that builds the expression: one step per
    entry of [update_data], skipping [None] values; [status], [date] and
    [location] go through an alias. *)
Definition update_step
    (acc : list (string * string) * gmap string value * gmap string string)
    (kv : string * value)
    : list (string * string) * gmap string value * gmap string string :=
  let '(update_expression, expression_values, expression_names) := acc in
  let '(key, v) := kv in
  match v with
  | VNone => acc
  | _ =>
      let placeholder := String.append ":" key in
      if str_in key ["status"; "date"; "location"] then
        let attr_name := String.append "#" key in
        (update_expression ++ [(attr_name, placeholder)],
         <[placeholder := v]> expression_values,
         <[attr_name := key]> expression_names)
      else
        (update_expression ++ [(key, placeholder)],
         <[placeholder := v]> expression_values,
         expression_names)
  end.

Definition build_update (utcnow : string) (update_data : Dict)
    : list (string * string) * gmap string value * gmap string string :=
  fold_left update_step update_data
    ([("updatedAt", ":updatedAt")], {[ ":updatedAt" := VStr utcnow ]}, ∅).

Definition update_event (utcnow : string) (event_id : string)
    (update_data : Dict) (st : Store) : result (option Item) * Store :=
  if blank_id event_id then
    (Raise (DatabaseException "Event ID cannot be empty" None), st)
  else
    match update_data with
    | [] => get_event event_id st
    | _ =>
        let '(update_expression, expression_values, expression_names) :=
          build_update utcnow update_data in
        let kw := mkUpdate event_id update_expression expression_values
                    (attribute_exists "eventId") expression_names in
        match update_item kw st with
        | (inr attributes, st) => (Ok attributes, st)
        | (inl (ClientError error_code m as e), st) =>
            if String.eqb error_code "ConditionalCheckFailedException"
            then (Raise (EventNotFoundException event_id), st)
            else (Raise (DatabaseException
                           (String.append "Failed to update event: " m) (Some e)), st)
        | (inl (BotoCoreError _ as e), st) =>
            (Raise (DatabaseException "Database connection error" (Some e)), st)
        | (inl e, st) => (Raise e, st)
        end
    end.

Definition delete_event (event_id : string) (st : Store)
    : result bool * Store :=
  if blank_id event_id then
    (Raise (DatabaseException "Event ID cannot be empty" None), st)
  else
    match delete_item event_id (attribute_exists "eventId") st with
    | (inr _, st) => (Ok true, st)
    | (inl (ClientError error_code m as e), st) =>
        if String.eqb error_code "ConditionalCheckFailedException"
        then (Raise (EventNotFoundException event_id), st)
        else (Raise (DatabaseException
                       (String.append "Failed to delete event: " m) (Some e)), st)
    | (inl (BotoCoreError _ as e), st) =>
        (Raise (DatabaseException "Database connection error" (Some e)), st)
    | (inl e, st) => (Raise e, st)
    end.

(* ===================================================================== *)
(** ** models.py *)
(* ===================================================================== *)

(** A decoded JSON value of a request or response body. *)
Inductive json :=
| JNull
| JStr (s : string)
| JInt (n : Z)
| JList (l : list json)
| JObj (o : list (string * json)).

(** What validating one field gives: its value, or the errors pydantic
    reports for it. *)
Abbreviation checked A := (list error_detail + A)%type.

Definition field_error {A} (name type_ msg : string) : checked A :=
  inl [ErrorDetail ["body"; name] msg type_].

(** A [ValueError] raised by a field validator. *)
Definition value_error {A} (name m : string) : checked A :=
  field_error name "value_error" (String.append "Value error, " m).

Definition errors_of {A} (c : checked A) : list error_detail :=
  match c with inl es => es | inr _ => [] end.

(** The [min_length] and [max_length] of a [Field], checked on the string
    as received. *)
Definition length_ok (name : string) (min_length max_length : option Z)
    (s : string) : checked string :=
  if match min_length with Some m => len s <? m | None => false end then
    field_error name "string_too_short" "String should have at least 1 character"
  else if match max_length with Some m => len s >? m | None => false end then
    field_error name "string_too_long"
      (String.append "String should have at most "
         (String.append (pretty (default 0 max_length)) " characters"))
  else inr s.

(** [gt=0, le=100000] *)
Definition range_ok (name : string) (n : Z) : checked Z :=
  if negb (n >? 0) then
    field_error name "greater_than" "Input should be greater than 0"
  else if negb (n <=? 100000) then
    field_error name "less_than_equal"
      "Input should be less than or equal to 100000"
  else inr n.

(** The integer of an [int] field. *)
Definition as_int `{!Library} (name : string) (j : json) : checked Z :=
  match j with
  | JInt n => inr n
  | JStr s =>
      match int_from_str s with
      | Some n => inr n
      | None => field_error name "int_parsing"
                  "Input should be a valid integer, unable to parse string as an integer"
      end
  | _ => field_error name "int_type" "Input should be a valid integer"
  end.

Definition status_literals : list string :=
  ["draft"; "published"; "active"; "cancelled"; "completed"].

(** [Literal["draft", "published", "active", "cancelled", "completed"]] *)
Definition as_status (name : string) (j : json) : checked string :=
  match j with
  | JStr s =>
      if str_in s status_literals then inr s
      else field_error name "literal_error"
             "Input should be 'draft', 'published', 'active', 'cancelled' or 'completed'"
  | _ => field_error name "literal_error"
           "Input should be 'draft', 'published', 'active', 'cancelled' or 'completed'"
  end.

Definition not_a_string {A} (name : string) : checked A :=
  field_error name "string_type" "Input should be a valid string".

Definition missing {A} (name : string) : checked A :=
  field_error name "missing" "Field required".

Definition after {A B} (name : string) (validator : A → string + B)
    (c : checked A) : checked B :=
  match c with
  | inl es => inl es
  | inr v => match validator v with
             | inl m => value_error name m
             | inr w => inr w
             end
  end.

Module EventBase.

(** [validate_not_empty]: [inl] is the message of the [ValueError]. *)
Definition validate_not_empty (v : string) : string + string :=
  if negb (str_truthy v) || negb (str_truthy (strip v)) then
    inl "Field cannot be empty or contain only whitespace"
  else inr (strip v).

Definition validate_date_format `{!Library} (v : string) : string + string :=
  if fromisoformat (replace_Z v) then inr v
  else if strptime_ymd v then inr v
  else inl "Date must be in ISO 8601 format (e.g., 2024-06-15 or 2024-06-15T09:00:00Z)".

Definition validate_capacity_range (v : Z) : string + Z :=
  if v <? 1 then inl "Capacity must be at least 1"
  else if v >? 100000 then inl "Capacity cannot exceed 100,000"
  else inr v.

(** A required [str] field with its length bounds and validator. *)
Definition text (name : string) (min_length max_length : option Z)
    (validator : string → string + string) (body : gmap string json)
    : checked string :=
  match body !! name with
  | None => missing name
  | Some (JStr s) => after name validator (length_ok name min_length max_length s)
  | Some _ => not_a_string name
  end.

Definition title_field := text "title" (Some 1) (Some 200) validate_not_empty.
Definition description_field :=
  text "description" (Some 1) (Some 1000) validate_not_empty.
Definition date_field `{!Library} := text "date" None None validate_date_format.
Definition location_field := text "location" (Some 1) (Some 200) validate_not_empty.
Definition organizer_field :=
  text "organizer" (Some 1) (Some 100) validate_not_empty.

Definition capacity_field `{!Library} (body : gmap string json) : checked Z :=
  match body !! "capacity" with
  | None => missing "capacity"
  | Some j =>
      after "capacity" validate_capacity_range
        (match as_int "capacity" j with
         | inl es => inl es
         | inr n => range_ok "capacity" n
         end)
  end.

Definition status_field (body : gmap string json) : checked string :=
  match body !! "status" with
  | None => missing "status"
  | Some j => as_status "status" j
  end.

End EventBase.

Module EventCreate.

Record t := mk {
  title : string;
  description : string;
  date : string;
  location : string;
  capacity : Z;
  organizer : string;
  status : string;
  eventId : option string
}.

(** [validate_event_id] *)
Definition validate_event_id (v : option string) : string + option string :=
  match v with
  | Some s =>
      if negb (str_truthy s) || negb (str_truthy (strip s)) then
        inl "Event ID cannot be empty or contain only whitespace"
      else inr (Some (strip s))
  | None => inr None
  end.

Definition eventId_field (body : gmap string json) : checked (option string) :=
  match body !! "eventId" with
  | None => inr None
  | Some JNull => after "eventId" validate_event_id (inr None)
  | Some (JStr s) =>
      after "eventId" validate_event_id
        (match length_ok "eventId" (Some 1) (Some 200) s with
         | inl es => inl es
         | inr s => inr (Some s)
         end)
  | Some _ => not_a_string "eventId"
  end.

(** Building an [EventCreate] from a request body: the model, or every
    field's errors in the order of declaration. Keys of the body that are
    not fields are ignored. *)
Definition validate `{!Library} (body : gmap string json) : result t :=
  let c1 := EventBase.title_field body in
  let c2 := EventBase.description_field body in
  let c3 := EventBase.date_field body in
  let c4 := EventBase.location_field body in
  let c5 := EventBase.capacity_field body in
  let c6 := EventBase.organizer_field body in
  let c7 := EventBase.status_field body in
  let c8 := eventId_field body in
  match c1, c2, c3, c4, c5, c6, c7, c8 with
  | inr v1, inr v2, inr v3, inr v4, inr v5, inr v6, inr v7, inr v8 =>
      Ok (mk v1 v2 v3 v4 v5 v6 v7 v8)
  | _, _, _, _, _, _, _, _ =>
      Raise (RequestValidationError
               (errors_of c1 ++ errors_of c2 ++ errors_of c3 ++ errors_of c4
                ++ errors_of c5 ++ errors_of c6 ++ errors_of c7 ++ errors_of c8))
  end.

(** [event.model_dump()] *)
Definition model_dump (e : t) : Dict :=
  [("title", VStr (title e)); ("description", VStr (description e));
   ("date", VStr (date e)); ("location", VStr (location e));
   ("capacity", VInt (capacity e)); ("organizer", VStr (organizer e));
   ("status", VStr (status e));
   ("eventId", match eventId e with Some s => VStr s | None => VNone end)].

End EventCreate.

Module EventUpdate.

(** A field of [EventUpdate] is unset ([None]), set to [None]
    ([Some None]) or set to a value. *)
Record t := mk {
  title : option (option string);
  description : option (option string);
  date : option (option string);
  location : option (option string);
  capacity : option (option Z);
  organizer : option (option string);
  status : option (option string)
}.

Definition validate_not_empty (v : option string) : string + option string :=
  match v with
  | Some s =>
      if negb (str_truthy s) || negb (str_truthy (strip s)) then
        inl "Field cannot be empty or contain only whitespace"
      else inr (Some (strip s))
  | None => inr None
  end.

Definition validate_date_format `{!Library} (v : option string)
    : string + option string :=
  match v with
  | Some s =>
      if fromisoformat (replace_Z s) then inr v
      else if strptime_ymd s then inr v
      else inl "Date must be in ISO 8601 format (e.g., 2024-06-15 or 2024-06-15T09:00:00Z)"
  | None => inr v
  end.

Definition validate_capacity_range (v : option Z) : string + option Z :=
  match v with
  | Some n =>
      if n <? 1 then inl "Capacity must be at least 1"
      else if n >? 100000 then inl "Capacity cannot exceed 100,000"
      else inr v
  | None => inr v
  end.

(** An [Optional[str]] field with default [None]: absent from the body it
    stays unset and its validator does not run. *)
Definition text (name : string) (min_length max_length : option Z)
    (validator : option string → string + option string)
    (body : gmap string json) : checked (option (option string)) :=
  match body !! name with
  | None => inr None
  | Some j =>
      match
        after name validator
          (match j with
           | JNull => inr None
           | JStr s =>
               match length_ok name min_length max_length s with
               | inl es => inl es
               | inr s => inr (Some s)
               end
           | _ => not_a_string name
           end)
      with
      | inl es => inl es
      | inr v => inr (Some v)
      end
  end.

Definition capacity_field `{!Library} (body : gmap string json)
    : checked (option (option Z)) :=
  match body !! "capacity" with
  | None => inr None
  | Some j =>
      match
        after "capacity" validate_capacity_range
          (match j with
           | JNull => inr None
           | _ =>
               match as_int "capacity" j with
               | inl es => inl es
               | inr n =>
                   match range_ok "capacity" n with
                   | inl es => inl es
                   | inr n => inr (Some n)
                   end
               end
           end)
      with
      | inl es => inl es
      | inr v => inr (Some v)
      end
  end.

Definition status_field (body : gmap string json)
    : checked (option (option string)) :=
  match body !! "status" with
  | None => inr None
  | Some JNull => inr (Some None)
  | Some j =>
      match as_status "status" j with
      | inl es => inl es
      | inr s => inr (Some (Some s))
      end
  end.

(** Building an [EventUpdate] from a request body. Keys of the body that
    are not fields of the model ([eventId], [createdAt], ...) are ignored. *)
Definition validate `{!Library} (body : gmap string json) : result t :=
  let c1 := text "title" (Some 1) (Some 200) validate_not_empty body in
  let c2 := text "description" (Some 1) (Some 1000) validate_not_empty body in
  let c3 := text "date" None None validate_date_format body in
  let c4 := text "location" (Some 1) (Some 200) validate_not_empty body in
  let c5 := capacity_field body in
  let c6 := text "organizer" (Some 1) (Some 100) validate_not_empty body in
  let c7 := status_field body in
  match c1, c2, c3, c4, c5, c6, c7 with
  | inr v1, inr v2, inr v3, inr v4, inr v5, inr v6, inr v7 =>
      Ok (mk v1 v2 v3 v4 v5 v6 v7)
  | _, _, _, _, _, _, _ =>
      Raise (RequestValidationError
               (errors_of c1 ++ errors_of c2 ++ errors_of c3 ++ errors_of c4
                ++ errors_of c5 ++ errors_of c6 ++ errors_of c7))
  end.

(** One entry of the dump: nothing for an unset field. *)
Definition entry {A} (name : string) (inj : A → value)
    (f : option (option A)) : Dict :=
  match f with
  | None => []
  | Some None => [(name, VNone)]
  | Some (Some v) => [(name, inj v)]
  end.

(** [event_update.model_dump(exclude_unset=True)] *)
Definition model_dump_exclude_unset (u : t) : Dict :=
  entry "title" VStr (title u) ++ entry "description" VStr (description u)
  ++ entry "date" VStr (date u) ++ entry "location" VStr (location u)
  ++ entry "capacity" VInt (capacity u) ++ entry "organizer" VStr (organizer u)
  ++ entry "status" VStr (status u).

End EventUpdate.

(* ===================================================================== *)
(** ** exceptions.py: the handlers *)
(* ===================================================================== *)

Record JSONResponse := mkResponse {
  status_code : Z;
  content : json
}.

Definition json_of_option (o : option string) : json :=
  match o with Some s => JStr s | None => JNull end.

Definition event_not_found_handler (event_id : string) : JSONResponse :=
  mkResponse 404
    (JObj [("error", JStr "Not Found");
           ("message", JStr (String.append "Event with ID '"
                               (String.append event_id "' not found")));
           ("event_id", JStr event_id)]).

Definition database_exception_handler (message : string) : JSONResponse :=
  mkResponse 500
    (JObj [("error", JStr "Database Error");
           ("message", JStr "An error occurred while accessing the database");
           ("detail", JStr message)]).

Definition validation_exception_handler (message : string)
    (field : option string) : JSONResponse :=
  mkResponse 422
    (JObj [("error", JStr "Validation Error");
           ("message", JStr message);
           ("field", json_of_option field)]).

Definition request_validation_exception_handler (errors : list error_detail)
    : JSONResponse :=
  mkResponse 422
    (JObj [("error", JStr "Validation Error");
           ("message", JStr "Invalid input data");
           ("details",
            JList ((λ error,
                      JObj [("field", JStr (join "." (loc error)));
                            ("message", JStr (msg error));
                            ("type", JStr (type_ error))]) <$> errors))]).

Definition generic_exception_handler : JSONResponse :=
  mkResponse 500
    (JObj [("error", JStr "Internal Server Error");
           ("message", JStr "An unexpected error occurred")]).

(** The handler registered for the class of the exception
    ([app.add_exception_handler] in [main.py]). *)
Definition handle (e : exn) : JSONResponse :=
  match e with
  | EventNotFoundException event_id => event_not_found_handler event_id
  | DatabaseException message _ => database_exception_handler message
  | ValidationException message field => validation_exception_handler message field
  | RequestValidationError errors => request_validation_exception_handler errors
  | ClientError _ _ | BotoCoreError _ | Exception _ => generic_exception_handler
  end.

(* ===================================================================== *)
(** ** main.py: the routes *)
(* ===================================================================== *)

Module Routes.

(** [except DatabaseException: raise] then
    [except Exception as e: raise DatabaseException(m, original_error=e)] *)
Definition reraise_database {A} (m : string) (r : result A) : result A :=
  match r with
  | Ok a => Ok a
  | Raise (DatabaseException _ _ as e) => Raise e
  | Raise e => Raise (DatabaseException m (Some e))
  end.

(** The same with [EventNotFoundException] re-raised too. *)
Definition reraise_not_found {A} (m : string) (r : result A) : result A :=
  match r with
  | Ok a => Ok a
  | Raise (EventNotFoundException _ as e) => Raise e
  | Raise (DatabaseException _ _ as e) => Raise e
  | Raise e => Raise (DatabaseException m (Some e))
  end.

(** The same with [ValidationException] re-raised too. *)
Definition reraise_validation {A} (m : string) (r : result A) : result A :=
  match r with
  | Ok a => Ok a
  | Raise (EventNotFoundException _ as e) => Raise e
  | Raise (ValidationException _ _ as e) => Raise e
  | Raise (DatabaseException _ _ as e) => Raise e
  | Raise e => Raise (DatabaseException m (Some e))
  end.

Definition create_event (uuid4 utcnow : string) (event : EventCreate.t)
    (st : Store) : result Item * Store :=
  let event_data := EventCreate.model_dump event in
  let '(created_event, st) := create_event uuid4 utcnow event_data st in
  (reraise_database "Failed to create event" created_event, st).

(** [if not event]: [None] or an empty dictionary. *)
Definition get_event (event_id : string) (st : Store) : result Item * Store :=
  let '(r, st) := get_event event_id st in
  (reraise_not_found "Failed to retrieve event"
     (match r with
      | Ok (Some event) =>
          if bool_decide (event = ∅) then Raise (EventNotFoundException event_id)
          else Ok event
      | Ok None => Raise (EventNotFoundException event_id)
      | Raise e => Raise e
      end), st).

Definition update_event (utcnow : string) (event_id : string)
    (event_update : EventUpdate.t) (st : Store)
    : result (option Item) * Store :=
  let update_data := EventUpdate.model_dump_exclude_unset event_update in
  match update_data with
  | [] =>
      (reraise_validation "Failed to update event"
         (Raise (ValidationException "No fields provided for update" None)), st)
  | _ =>
      let '(updated_event, st) := update_event utcnow event_id update_data st in
      (reraise_validation "Failed to update event" updated_event, st)
  end.

Definition delete_event (event_id : string) (st : Store)
    : result unit * Store :=
  let '(r, st) := delete_event event_id st in
  (reraise_not_found "Failed to delete event"
     (match r with Ok _ => Ok tt | Raise e => Raise e end), st).

(** What [health_check] returns: the healthy body with the version, or
    the unhealthy body whose [error] is [str(e)] of the exception caught. *)
Inductive health :=
| healthy_connected (version : string)
| unhealthy_disconnected (error : exn).

(** [health_check]: [except Exception] catches whatever the listing
    raises. *)
Definition health_check (API_VERSION : string) (fuel : nat) (st : Store)
    : option (health * Store) :=
  match list_events fuel (Some 1) st with
  | None => None
  | Some (Ok _, st) => Some (healthy_connected API_VERSION, st)
  | Some (Raise e, st) => Some (unhealthy_disconnected e, st)
  end.

(** [list_events]: the filter is applied to what the gateway returned, and
    only when [status_filter] is neither [None] nor empty. *)
Definition list_events (fuel : nat) (limit : option Z)
    (status_filter : option string) (st : Store)
    : option (result (list Item) * Store) :=
  match list_events fuel limit st with
  | None => None
  | Some (r, st) =>
      Some (reraise_database "Failed to list events"
              (match r with
               | Ok events =>
                   match status_filter with
                   | Some f =>
                       if str_truthy f
                       then Ok (filter (λ e : Item, e !! "status" = Some (VStr f)) events)
                       else Ok events
                   | None => Ok events
                   end
               | Raise e => Raise e
               end), st)
  end.

End Routes.

(** The body of a successful response. *)
Definition json_of_value (v : value) : json :=
  match v with
  | VNone => JNull
  | VStr s => JStr s
  | VInt n => JInt n
  end.

Definition json_of_item (it : Item) : json :=
  JObj ((λ kv, (fst kv, json_of_value (snd kv))) <$> map_to_list it).

(** The response to a route's outcome: the route's status code on return,
    the registered handler's response on an exception. *)
Definition respond {A} (ok_status : Z) (to_json : A → json) (r : result A)
    : JSONResponse :=
  match r with
  | Ok a => mkResponse ok_status (to_json a)
  | Raise e => handle e
  end.

(** [POST /events] with a JSON object as body. *)
Definition post_events `{!Library} (uuid4 utcnow : string)
    (body : gmap string json) (st : Store) : JSONResponse * Store :=
  match EventCreate.validate body with
  | Raise e => (handle e, st)
  | Ok event =>
      let '(r, st) := Routes.create_event uuid4 utcnow event st in
      (respond 201 json_of_item r, st)
  end.

(** [GET /events/{event_id}] *)
Definition get_events_id (event_id : string) (st : Store)
    : JSONResponse * Store :=
  let '(r, st) := Routes.get_event event_id st in
  (respond 200 json_of_item r, st).




(* ===================================================================== *)
(** ** config.py *)
(* ===================================================================== *)

(** [s.split(',')] *)
Fixpoint split_comma (s : string) : list string :=
  match s with
  | EmptyString => [EmptyString]
  | String c r =>
      if Ascii.eqb c ","%char then EmptyString :: split_comma r
      else match split_comma r with
           | x :: xs => String c x :: xs
           | [] => [String c EmptyString]
           end
  end.

(** [Settings.parse_cors_origins]: a string is split at the commas, and the
    pieces that are not blank are kept, trimmed; a list is returned as it
    is. *)
Definition parse_cors_origins (v : string + list string) : list string :=
  match v with
  | inl s =>
      strip <$> filter (λ origin, str_truthy (strip origin) = true) (split_comma s)
  | inr l => l
  end.

(* ===================================================================== *)
(** ** Vocabulary of the statements *)
(* ===================================================================== *)



(** The entries of a patch whose value is not [None]. *)
Definition non_null (d : Dict) : Dict :=
  filter (λ kv, snd kv ≠ VNone) d.

(** What an update writes: the new [updatedAt] and the non-null entries. *)
Definition assignments (utcnow : string) (d : Dict) : Dict :=
  ("updatedAt", VStr utcnow) :: non_null d.




(** The item [create_event] builds for a validated [EventCreate] under the
    identifier [event_id] at time [utcnow]. *)
Definition new_item (event_id utcnow : string) (e : EventCreate.t) : Item :=
  dict_over
    [("title", VStr (EventCreate.title e));
     ("description", VStr (EventCreate.description e));
     ("date", VStr (EventCreate.date e));
     ("location", VStr (EventCreate.location e));
     ("capacity", VInt (EventCreate.capacity e));
     ("organizer", VStr (EventCreate.organizer e));
     ("status", VStr (EventCreate.status e))]
    (<["updatedAt" := VStr utcnow]>
       (<["createdAt" := VStr utcnow]> (<["eventId" := VStr event_id]> ∅))).



(** No character of the string is a comma. *)
Fixpoint comma_free (s : string) : bool :=
  match s with
  | EmptyString => true
  | String c r => negb (Ascii.eqb c ","%char) && comma_free r
  end.

(** Every character of the string is whitespace. *)
Fixpoint all_space (s : string) : bool :=
  match s with
  | EmptyString => true
  | String c r => isspace c && all_space r
  end.

(* ===================================================================== *)
(** ** Sample data *)
(* ===================================================================== *)

(** A library that accepts the dates the specification lists as valid. *)
Definition sample_library : Library := {|
  fromisoformat s :=
    str_in s ["2024-06-15"; "2024-06-15T09:00:00+00:00"; "2024-06-15T09:00:00+02:00"];
  strptime_ymd s := String.eqb s "2024-06-15";
  int_from_str _ := None
|}.

Definition sample_item (event_id title : string) : Item :=
  list_to_map
    [("eventId", VStr event_id); ("createdAt", VStr "2024-01-01T00:00:00Z");
     ("updatedAt", VStr "2024-01-01T00:00:00Z"); ("title", VStr title);
     ("description", VStr "Annual conference"); ("date", VStr "2024-06-15");
     ("location", VStr "Lisbon"); ("capacity", VInt 500);
     ("organizer", VStr "Tech Events Inc"); ("status", VStr "published")].

(** A reachable store holding the events [e1] ... [e5]; scans return one
    item per page. *)
Definition sample_store : Store :=
  mkStore
    (list_to_map
       [("e1", sample_item "e1" "One"); ("e2", sample_item "e2" "Two");
        ("e3", sample_item "e3" "Three"); ("e4", sample_item "e4" "Four");
        ("e5", sample_item "e5" "Five")])
    1 None [].

Definition sample_body (event_id : option json) : gmap string json :=
  list_to_map
    ([("title", JStr "  Tech Conference 2024 ");
      ("description", JStr "Annual technology conference");
      ("date", JStr "2024-06-15T09:00:00Z"); ("location", JStr "San Francisco, CA");
      ("capacity", JInt 500); ("organizer", JStr "Tech Events Inc");
      ("status", JStr "active")]
     ++ match event_id with Some j => [("eventId", j)] | None => [] end).

(** The model [sample_body] validates to. *)
Definition sample_event (event_id : option string) : EventCreate.t :=
  EventCreate.mk "Tech Conference 2024" "Annual technology conference"
    "2024-06-15T09:00:00Z" "San Francisco, CA" 500 "Tech Events Inc" "active"
    event_id.





(** A library whose ISO parser wants zero-padded dates while the
    [%Y-%m-%d] parser also reads unpadded ones. *)
Definition padded_iso_library : Library := {|
  fromisoformat s := String.eqb s "2024-06-05";
  strptime_ymd s := str_in s ["2024-06-05"; "2024-6-5"];
  int_from_str _ := None
|}.

(* ===================================================================== *)
(** ** Properties *)
(* ===================================================================== *)

Example strip_ex : strip "  ab c  " = "ab c".
Proof. reflexivity. Qed.

Example validate_capacity_ex :
  validate_capacity 0 1 100000
  = Raise (ValidationException "Capacity must be at least 1" (Some "capacity")).
Proof. vm_compute. reflexivity. Qed.


(** *** Strings *)

Lemma rstrip_idem s : rstrip (rstrip s) = rstrip s.
Proof.
  induction s as [|c r IH]; [done|].
  simpl. destruct (rstrip r) as [|c' r'] eqn:E.
  - destruct (isspace c) eqn:Hc; simpl; [done|]. by rewrite Hc.
  - simpl in *. by rewrite IH.
Qed.

Lemma lstrip_head_clean s : head_clean (lstrip s) = true.
Proof.
  induction s as [|c r IH]; [done|].
  simpl. destruct (isspace c) eqn:Hc; [done|]. simpl. by rewrite Hc.
Qed.

Lemma rstrip_cons_clean c r :
  isspace c = false → rstrip (String c r) = String c (rstrip r).
Proof. intros Hc. simpl. destruct (rstrip r); by rewrite ?Hc. Qed.

Lemma lstrip_clean s : head_clean s = true → lstrip s = s.
Proof. destruct s as [|c r]; [done|]. simpl. by destruct (isspace c). Qed.

Lemma rstrip_clean s : last_clean s = true → rstrip s = s.
Proof.
  induction s as [|c r IH]; [done|].
  intros H. destruct r as [|c' r'].
  - simpl in *. by destruct (isspace c).
  - change (last_clean (String c' r') = true) in H.
    specialize (IH H). simpl in *. by rewrite IH.
Qed.

Lemma rstrip_head_clean s : head_clean s = true → head_clean (rstrip s) = true.
Proof.
  destruct s as [|c r]; [done|]. simpl. intros Hc%negb_true_iff.
  destruct (rstrip r); by rewrite ?Hc /= ?Hc.
Qed.

Lemma strip_idem s : strip (strip s) = strip s.
Proof.
  unfold strip.
  rewrite (lstrip_clean (rstrip (lstrip s))).
  - apply rstrip_head_clean, lstrip_head_clean.
  - apply rstrip_idem.
Qed.

Lemma strip_clean s : no_outer_space s = true → strip s = s.
Proof.
  unfold no_outer_space, strip. intros [H1 H2]%andb_true_iff.
  rewrite lstrip_clean //. by apply rstrip_clean.
Qed.

Lemma replace_Z_head_clean s :
  head_clean (replace_Z s) = true → head_clean s = true.
Proof.
  destruct s as [|c r]; [done|]. simpl.
  destruct (Ascii.eqb c "Z") eqn:E; [|done].
  apply Ascii.eqb_eq in E as ->. done.
Qed.

Lemma last_clean_app s t :
  t ≠ EmptyString → last_clean (String.append s t) = last_clean t.
Proof.
  intros Ht. induction s as [|c r IH]; [done|].
  simpl. destruct (String.append r t) eqn:E; [|done].
  destruct r, t; simplify_eq/=.
Qed.

Lemma replace_Z_last_clean s :
  last_clean (replace_Z s) = true → last_clean s = true.
Proof.
  induction s as [|c r IH]; [done|].
  destruct r as [|c' r'].
  - simpl. destruct (Ascii.eqb c "Z") eqn:E; [|done].
    apply Ascii.eqb_eq in E as ->. done.
  - intros H. change (last_clean (String c (String c' r'))) with (last_clean (String c' r')).
    apply IH. clear IH. revert H.
    assert (replace_Z (String c' r') ≠ EmptyString) as Hne.
    { simpl. by destruct (Ascii.eqb c' "Z"). }
    change (replace_Z (String c (String c' r'))) with
      (if Ascii.eqb c "Z" then String.append "+00:00" (replace_Z (String c' r'))
       else String c (replace_Z (String c' r'))).
    destruct (Ascii.eqb c "Z").
    + by rewrite last_clean_app.
    + simpl. destruct (Ascii.eqb c' "Z"); simpl; done.
Qed.

Lemma replace_Z_no_outer_space s :
  no_outer_space (replace_Z s) = true → no_outer_space s = true.
Proof.
  unfold no_outer_space. intros [H1 H2]%andb_true_iff.
  by rewrite replace_Z_head_clean // replace_Z_last_clean.
Qed.

(** *** Validators *)

(** The record models accept exactly the five status literals. *)
Lemma as_status_accepts name s :
  (∃ v, as_status name (JStr s) = inr v) ↔
  s ∈ ["draft"; "published"; "active"; "cancelled"; "completed"].
Proof.
  unfold as_status, status_literals, str_in. simpl. split.
  - intros [v Hv].
    destruct (String.eqb_spec s "draft") as [->|]; [set_solver|].
    destruct (String.eqb_spec s "published") as [->|]; [set_solver|].
    destruct (String.eqb_spec s "active") as [->|]; [set_solver|].
    destruct (String.eqb_spec s "cancelled") as [->|]; [set_solver|].
    destruct (String.eqb_spec s "completed") as [->|]; [set_solver|].
    done.
  - intros H. repeat (apply elem_of_cons in H as [->|H]; [by eexists|]).
    by apply elem_of_nil in H.
Qed.

(** [validate_status] accepts exactly the four values of its own list. *)
Lemma validate_status_accepts s :
  validate_status s = Ok true ↔
  s ∈ ["draft"; "published"; "cancelled"; "completed"].
Proof.
  unfold validate_status, valid_statuses, str_in. simpl. split.
  - destruct (String.eqb_spec s "draft") as [->|]; [set_solver|].
    destruct (String.eqb_spec s "published") as [->|]; [set_solver|].
    destruct (String.eqb_spec s "cancelled") as [->|]; [set_solver|].
    destruct (String.eqb_spec s "completed") as [->|]; [set_solver|].
    done.
  - intros H. repeat (apply elem_of_cons in H as [->|H]; [done|]).
    by apply elem_of_nil in H.
Qed.

(** C5. The status value [active], one of the five the record models
    accept, is rejected by [validate_status] of the validators module,
    whose own list has only four values. *)
Theorem C5_validate_status_rejects_active :
  as_status "status" (JStr "active") = inr "active"
  ∧ EventUpdate.status_field {[ "status" := JStr "active" ]}
    = inr (Some (Some "active"))
  ∧ validate_status "active"
    = Raise (ValidationException
               "Status must be one of: draft, published, cancelled, completed"
               (Some "status")).
Proof. split; [|split]; vm_compute; reflexivity. Qed.

(** The validators for date, status and capacity name the field in every
    failure they raise. *)
Lemma sibling_validators_name_field `{!Library} :
  (∀ d e, validate_date_format d = Raise e →
          ∃ m, e = ValidationException m (Some "date"))
  ∧ (∀ s e, validate_status s = Raise e →
            ∃ m, e = ValidationException m (Some "status"))
  ∧ (∀ c lo hi e, validate_capacity c lo hi = Raise e →
                  ∃ m, e = ValidationException m (Some "capacity")).
Proof.
  split; [|split].
  - intros d e. unfold validate_date_format.
    destruct (fromisoformat _); intros; simplify_eq; eauto.
  - intros s e. unfold validate_status.
    destruct (negb _); intros; simplify_eq; eauto.
  - intros c lo hi e. unfold validate_capacity.
    destruct (c <? lo); [intros; simplify_eq; eauto|].
    destruct (c >? hi); intros; simplify_eq; eauto.
Qed.

(** No failure of [sanitize_string] names a field. *)
Lemma sanitize_string_field_none value max_length e :
  sanitize_string value max_length = Raise e →
  ∃ m, e = ValidationException m None.
Proof.
  unfold sanitize_string.
  destruct (negb (str_truthy (strip value))); [intros; simplify_eq; eauto|].
  destruct max_length as [m|]; [|done].
  destruct (negb (m =? 0) && _); intros; simplify_eq; eauto.
Qed.

(** C6. The [ValidationException] that [sanitize_string] raises for an empty,
    a whitespace-only and an over-length string carries a message but no
    field name, and so does the one the update route raises for an empty
    patch; the handler then answers with a null [field]. *)
Theorem C6_sanitize_string_no_field :
  sanitize_string "" None
  = Raise (ValidationException
             "Field cannot be empty or contain only whitespace" None)
  ∧ sanitize_string "   " (Some 200)
    = Raise (ValidationException
               "Field cannot be empty or contain only whitespace" None)
  ∧ sanitize_string " abcdef " (Some 3)
    = Raise (ValidationException
               "Field exceeds maximum length of 3 characters" None)
  ∧ handle (ValidationException
              "Field cannot be empty or contain only whitespace" None)
    = mkResponse 422
        (JObj [("error", JStr "Validation Error");
               ("message", JStr "Field cannot be empty or contain only whitespace");
               ("field", JNull)])
  ∧ fst (Routes.update_event "2024-02-02T00:00:00Z" "e1"
           (EventUpdate.mk None None None None None None None) sample_store)
    = Raise (ValidationException "No fields provided for update" None).
Proof. repeat split; vm_compute; reflexivity. Qed.

(** *** Dictionaries *)



Lemma dict_over_notin {A} (l : list (string * A)) m k :
  k ∉ fst <$> l → dict_over l m !! k = m !! k.
Proof.
  revert m. induction l as [|[k' v] l IH]; intros m; [done|].
  rewrite fmap_cons not_elem_of_cons /=. intros [Hne Hl].
  change (dict_over l (<[k' := v]> m) !! k = m !! k).
  rewrite IH // lookup_insert_ne //.
Qed.


Lemma dict_over_app {A} (l1 l2 : list (string * A)) m :
  dict_over (l1 ++ l2) m = dict_over l2 (dict_over l1 m).
Proof. apply fold_left_app. Qed.

(** *** The update expression *)









(** *** The gateway *)

Lemma current_Some st k record :
  current st k = Some record →
  ∃ it, items st !! k = Some it ∧ record = with_key k it.
Proof.
  unfold current. destruct (items st !! k) as [it|]; [|done].
  intros [= <-]. eauto.
Qed.

Lemma exists_holds st k record :
  current st k = Some record →
  condition_holds (attribute_exists "eventId") (current st k) = true.
Proof.
  intros H. rewrite H /=. apply bool_decide_eq_true.
  apply current_Some in H as (it & _ & ->).
  rewrite /with_key lookup_insert_eq. by eexists.
Qed.



Lemma delete_event_missing event_id st :
  blank_id event_id = false → fault st = None →
  items st !! event_id = None →
  delete_event event_id st
  = (Raise (EventNotFoundException event_id), log DeleteItem st).
Proof.
  intros Hb Hf Hc. rewrite /delete_event Hb /delete_item /= Hf.
  change (current (log DeleteItem st) event_id) with (current st event_id).
  by rewrite /current Hc.
Qed.

Lemma get_event_ok event_id st :
  blank_id event_id = false → fault st = None →
  get_event event_id st = (Ok (current st event_id), log GetItem st).
Proof. intros Hb Hf. by rewrite /get_event Hb /get_item /= Hf. Qed.

(** C4. For a record stored under a well-formed identifier in a reachable
    store, the gateway's update with an empty patch is the gateway's get: it
    returns the stored record as it is, [updatedAt] included, leaves the
    table as it was, and the only request it sends is a read. *)
Theorem C4_update_empty_patch_is_get utcnow event_id st record :
  blank_id event_id = false →
  fault st = None →
  current st event_id = Some record →
  update_event utcnow event_id [] st = get_event event_id st
  ∧ fst (update_event utcnow event_id [] st) = Ok (Some record)
  ∧ items (snd (update_event utcnow event_id [] st)) = items st
  ∧ calls (snd (update_event utcnow event_id [] st)) = calls st ++ [GetItem].
Proof.
  intros Hb Hf Hc.
  assert (update_event utcnow event_id [] st = get_event event_id st) as ->.
  { by rewrite /update_event Hb. }
  rewrite get_event_ok // Hc. done.
Qed.




(** *** Validated inputs *)

Lemma EventCreate_validate_inv `{!Library} body e :
  EventCreate.validate body = Ok e →
  EventBase.title_field body = inr (EventCreate.title e)
  ∧ EventBase.description_field body = inr (EventCreate.description e)
  ∧ EventBase.date_field body = inr (EventCreate.date e)
  ∧ EventBase.location_field body = inr (EventCreate.location e)
  ∧ EventBase.capacity_field body = inr (EventCreate.capacity e)
  ∧ EventBase.organizer_field body = inr (EventCreate.organizer e)
  ∧ EventBase.status_field body = inr (EventCreate.status e)
  ∧ EventCreate.eventId_field body = inr (EventCreate.eventId e).
Proof.
  unfold EventCreate.validate.
  destruct (EventBase.title_field body); [done|].
  destruct (EventBase.description_field body); [done|].
  destruct (EventBase.date_field body); [done|].
  destruct (EventBase.location_field body); [done|].
  destruct (EventBase.capacity_field body); [done|].
  destruct (EventBase.organizer_field body); [done|].
  destruct (EventBase.status_field body); [done|].
  destruct (EventCreate.eventId_field body); [done|].
  by intros [= <-].
Qed.

(** A validated identifier is the trimmed, non-empty form of the one
    supplied. *)
Lemma eventId_field_Some body id :
  EventCreate.eventId_field body = inr (Some id) →
  ∃ s, body !! "eventId" = Some (JStr s) ∧ id = strip s ∧ str_truthy id = true.
Proof.
  unfold EventCreate.eventId_field.
  destruct (body !! "eventId") as [[]|]; try done.
  rewrite /after /EventCreate.validate_event_id.
  destruct (length_ok _ _ _ _) as [|s'] eqn:El; [done|].
  assert (s' = s) as ->.
  { revert El. unfold length_ok. repeat case_match; by try intros [= ->]. }
  destruct (negb (str_truthy s) || negb (str_truthy (strip s))) eqn:E; [done|].
  intros [= <-]. exists s. repeat split.
  apply orb_false_iff in E as [_ E]. by apply negb_false_iff in E.
Qed.

(** A blank identifier does not pass validation. *)
Lemma eventId_field_blank body s :
  body !! "eventId" = Some (JStr s) → strip s = "" →
  ∃ es, EventCreate.eventId_field body = inl es ∧ es ≠ [].
Proof.
  intros Hb Hs. rewrite /EventCreate.eventId_field Hb /after.
  destruct (length_ok _ _ _ _) as [es|s'] eqn:El.
  { exists es. split; [done|]. revert El. unfold length_ok, field_error.
    repeat case_match; by intros [= <-]. }
  assert (s' = s) as ->.
  { revert El. unfold length_ok. repeat case_match; by try intros [= ->]. }
  rewrite /EventCreate.validate_event_id Hs orb_true_r. by eexists.
Qed.

Lemma create_event_item uuid4 utcnow e :
  dict_over (snd (dict_pop "eventId" (EventCreate.model_dump e)))
    (<["updatedAt" := VStr utcnow]>
       (<["createdAt" := VStr utcnow]> (<["eventId" := VStr uuid4]> ∅)))
  = new_item uuid4 utcnow e.
Proof. by destruct e. Qed.

Lemma new_item_eventId id utcnow e : new_item id utcnow e !! "eventId" = Some (VStr id).
Proof. destruct e. vm_compute. reflexivity. Qed.

(** [create_event] on the dump of a validated input: the identifier is the
    supplied one, or the generated one when none is supplied, and the one
    request to the store is the conditional insert of [new_item]. *)
Lemma create_event_unfold uuid4 utcnow e st :
  (∀ id, EventCreate.eventId e = Some id → str_truthy id = true) →
  let id := default uuid4 (EventCreate.eventId e) in
  create_event uuid4 utcnow (EventCreate.model_dump e) st
  = match put_item (new_item id utcnow e) (attribute_not_exists "eventId") st with
    | (inr _, st) => (Ok (new_item id utcnow e), st)
    | (inl (ClientError error_code m as err), st) =>
        if String.eqb error_code "ConditionalCheckFailedException"
        then (Raise (DatabaseException "Event with this ID already exists" None), st)
        else (Raise (DatabaseException
                       (String.append "Failed to create event: " m) (Some err)), st)
    | (inl (BotoCoreError _ as err), st) =>
        (Raise (DatabaseException "Database connection error" (Some err)), st)
    | (inl err, st) => (Raise err, st)
    end.
Proof.
  intros Hid id. subst id. unfold create_event.
  assert (dict_pop "eventId" (EventCreate.model_dump e)
          = (match EventCreate.eventId e with Some s => VStr s | None => VNone end,
             snd (dict_pop "eventId" (EventCreate.model_dump e)))) as ->
    by (destruct e; reflexivity).
  destruct (EventCreate.eventId e) as [id|] eqn:Eid; simpl.
  - rewrite (Hid id eq_refl) create_event_item. done.
  - rewrite create_event_item. done.
Qed.

Lemma validated_id_truthy `{!Library} body e :
  EventCreate.validate body = Ok e →
  ∀ id, EventCreate.eventId e = Some id → str_truthy id = true.
Proof.
  intros Hv id Hid. apply EventCreate_validate_inv in Hv.
  destruct Hv as (_ & _ & _ & _ & _ & _ & _ & Hf). rewrite Hid in Hf.
  by apply eventId_field_Some in Hf as (s & _ & _ & ?).
Qed.

Lemma put_item_existing item k cond st :
  fault st = None → item !! "eventId" = Some (VStr k) →
  condition_holds cond (current st k) = false →
  put_item item cond st = (inl conditional_check_failed, log PutItem st).
Proof.
  intros Hf Hk Hc. rewrite /put_item /= Hf Hk.
  change (current (log PutItem st) k) with (current st k). by rewrite Hc.
Qed.

Lemma put_item_fresh item k cond st :
  fault st = None → item !! "eventId" = Some (VStr k) →
  condition_holds cond (current st k) = true →
  put_item item cond st
  = (inr tt, set_items (<[k := item]> (items st)) (log PutItem st)).
Proof.
  intros Hf Hk Hc. rewrite /put_item /= Hf Hk.
  change (current (log PutItem st) k) with (current st k). by rewrite Hc.
Qed.

Lemma put_item_fault item cond st err :
  fault st = Some err → put_item item cond st = (inl err, log PutItem st).
Proof. intros Hf. by rewrite /put_item /= Hf. Qed.

Lemma not_exists_holds st k :
  condition_holds (attribute_not_exists "eventId") (current st k)
  = bool_decide (items st !! k = None).
Proof.
  unfold current, condition_holds. destruct (items st !! k) as [it|]; simpl.
  - rewrite /with_key lookup_insert_eq. done.
  - done.
Qed.

(** A create under an identifier in use, on a validated input. *)
Lemma create_duplicate_id `{!Library} uuid4 utcnow body e id st :
  EventCreate.validate body = Ok e →
  EventCreate.eventId e = Some id →
  is_Some (items st !! id) →
  fault st = None →
  create_event uuid4 utcnow (EventCreate.model_dump e) st
  = (Raise (DatabaseException "Event with this ID already exists" None),
     log PutItem st).
Proof.
  intros Hv Hid [it Hit] Hf.
  pose proof (validated_id_truthy body e Hv) as Ht.
  rewrite create_event_unfold // Hid /=.
  assert (condition_holds (attribute_not_exists "eventId") (current st id) = false)
    as Hc by (by rewrite not_exists_holds Hit).
  by rewrite (put_item_existing _ id _ _ Hf (new_item_eventId _ _ _) Hc).
Qed.

(** C1. For every validated [EventCreate] whose (trimmed) [eventId] is
    already a key of a reachable store, [create_event] raises the
    duplicate-identifier error [DatabaseException("Event with this ID
    already exists")], which carries no original error, and stores nothing.
    A connection failure and any other store error give other exceptions:
    each carries its original error and its own message. *)
Theorem C1_create_duplicate_id_conflict `{!Library} uuid4 utcnow body e id st :
  EventCreate.validate body = Ok e →
  EventCreate.eventId e = Some id →
  is_Some (items st !! id) →
  fault st = None →
  create_event uuid4 utcnow (EventCreate.model_dump e) st
  = (Raise (DatabaseException "Event with this ID already exists" None),
     log PutItem st)
  ∧ (∀ st' text,
       fault st' = Some (BotoCoreError text) →
       fst (create_event uuid4 utcnow (EventCreate.model_dump e) st')
       = Raise (DatabaseException "Database connection error"
                  (Some (BotoCoreError text))))
  ∧ (∀ st' code m,
       fault st' = Some (ClientError code m) →
       code ≠ "ConditionalCheckFailedException" →
       fst (create_event uuid4 utcnow (EventCreate.model_dump e) st')
       = Raise (DatabaseException (String.append "Failed to create event: " m)
                  (Some (ClientError code m))))
  ∧ (∀ m err, DatabaseException "Event with this ID already exists" None
              ≠ DatabaseException m (Some err)).
Proof.
  intros Hv Hid Hs Hf.
  pose proof (validated_id_truthy body e Hv) as Ht.
  repeat split.
  - by apply (create_duplicate_id _ _ body _ id).
  - intros st' text Hf'. rewrite create_event_unfold //.
    by rewrite (put_item_fault _ _ _ _ Hf').
  - intros st' code m Hf' Hne. rewrite create_event_unfold //.
    rewrite (put_item_fault _ _ _ _ Hf').
    apply String.eqb_neq in Hne. by rewrite Hne.
  - done.
Qed.

Lemma C1_create_duplicate_id_conflict_witness :
  EventCreate.validate (H:=sample_library) (sample_body (Some (JStr " e1 ")))
  = Ok (sample_event (Some "e1"))
  ∧ is_Some (items sample_store !! "e1")
  ∧ fault sample_store = None
  ∧ create_event "uuid-1" "2024-02-02T00:00:00Z"
      (EventCreate.model_dump (sample_event (Some "e1"))) sample_store
    = (Raise (DatabaseException "Event with this ID already exists" None),
       log PutItem sample_store).
Proof.
  assert (EventCreate.validate (H:=sample_library) (sample_body (Some (JStr " e1 ")))
          = Ok (sample_event (Some "e1"))) as Hv by (vm_compute; reflexivity).
  assert (is_Some (items sample_store !! "e1")) as Hs
    by (apply (bool_decide_unpack _); vm_compute; exact I).
  split; [exact Hv|]. split; [exact Hs|]. split; [reflexivity|].
  exact (proj1 (C1_create_duplicate_id_conflict (H:=sample_library)
                  "uuid-1" "2024-02-02T00:00:00Z" _ _ "e1" sample_store
                  Hv eq_refl Hs eq_refl)).
Defined.

(** *** Patches built from [EventUpdate] *)













(** *** Listing *)

Lemma scan_ok kw st :
  fault st = None →
  (∀ n, Limit kw = Some n → 1 ≤ n) →
  let start := default 0%nat (ExclusiveStartKey kw) in
  let rest := drop start (table_scan st) in
  let cap := match Limit kw with
             | Some n => Nat.min (Z.to_nat n) (page_cap st)
             | None => page_cap st
             end in
  scan kw st
  = (inr (mkScanResponse (take cap rest)
            (if (cap <=? length rest)%nat
             then Some (start + length (take cap rest))%nat else None)),
     log Scan st).
Proof.
  intros Hf Hl. rewrite /scan /= Hf.
  destruct (Limit kw) as [n|]; [|done].
  specialize (Hl n eq_refl). by rewrite (proj2 (Z.ltb_ge n 1) Hl).
Qed.

Lemma list_events_loop_spec limit all C fuel :
  (limit_given limit = true → 1 ≤ default 0 limit) →
  (0 < C)%nat →
  ∀ response acc st p,
    fault st = None → page_cap st = C → table_scan st = all →
    acc = take p all → (p ≤ length all)%nat →
    (limit_given limit = true → (p ≤ Z.to_nat (default 0%Z limit))%nat) →
    (LastEvaluatedKey response = Some p ∧ (length all - p + 2 ≤ fuel)%nat
     ∨ LastEvaluatedKey response = None ∧ p = length all ∧ (1 ≤ fuel)%nat) →
    ∃ st',
      list_events_loop fuel limit response acc st
      = Some (inr (if limit_given limit
                   then take (Z.to_nat (default 0%Z limit)) all else all), st')
      ∧ items st' = items st ∧ page_cap st' = C ∧ fault st' = None.
Proof.
  intros Hpos HC.
  induction fuel as [|fuel IH]; intros response acc st p Hf Hcap Hall Hacc Hp Hlim Hlek.
  { destruct Hlek as [[_ ?]|(_ & _ & ?)]; lia. }
  assert (length acc = p) as Hlen by (rewrite Hacc length_take; lia).
  simpl. destruct Hlek as [[-> Hfuel]|(-> & -> & _)].
  - destruct (negb (limit_given limit) || (Z.of_nat (length acc) <? default 0 limit))
      eqn:Hgo.
    + (* one more page *)
      set (kw := mkScan _ _).
      assert (∀ n, Limit kw = Some n → 1 ≤ n) as Hkw.
      { intros n. subst kw. simpl. destruct (limit_given limit) eqn:Hg; [|done].
        intros [= <-]. simpl in Hgo. apply Z.ltb_lt in Hgo. lia. }
      rewrite (scan_ok kw st Hf Hkw) Hall Hcap. cbv zeta.
      change (default 0%nat (ExclusiveStartKey kw)) with p.
      set (cap := match Limit kw with
                  | Some n => Nat.min (Z.to_nat n) C | None => C end).
      simpl.
      assert (1 ≤ cap)%nat as Hc1.
      { subst cap kw. simpl. destruct (limit_given limit) eqn:Hg; [|lia].
        simpl in Hgo. apply Z.ltb_lt in Hgo. lia. }
      assert (limit_given limit = true →
              (p + cap ≤ Z.to_nat (default 0%Z limit))%nat) as Hc2.
      { intros Hg. subst cap kw. simpl. rewrite Hg. specialize (Hlim Hg). lia. }
      assert (acc ++ take cap (drop p all)
              = take (p + Nat.min cap (length all - p)) all) as Hacc'.
      { rewrite Hacc take_take_drop.
        destruct (Nat.le_ge_cases cap (length all - p)).
        - by rewrite Nat.min_l.
        - rewrite Nat.min_r // !take_ge //; lia. }
      rewrite Hacc' length_take length_drop.
      apply (IH _ _ (log Scan st) (p + Nat.min cap (length all - p))%nat);
        try done; [lia | intros Hg; specialize (Hc2 Hg); lia |].
      simpl. destruct (Nat.leb_spec cap (length all - p)).
      * left. split; [done|]. lia.
      * right. split; [done|]. split; lia.
    + (* the limit is reached *)
      apply orb_false_iff in Hgo as [Hg%negb_false_iff Hlt%Z.ltb_ge].
      rewrite Hg. eexists. split; [|done].
      do 3 f_equal. rewrite Hacc. f_equal. specialize (Hlim Hg).
      specialize (Hpos Hg). lia.
  - (* the store has no more data *)
    eexists. split; [|done]. do 3 f_equal.
    destruct (limit_given limit) eqn:Hg; [|by rewrite Hacc take_ge].
    rewrite Hacc !take_ge //. specialize (Hlim eq_refl). lia.
Qed.

Lemma table_scan_length st : length (table_scan st) = size (items st).
Proof. by rewrite /table_scan length_fmap length_map_to_list. Qed.

(** C9. In a reachable store whose scan pages hold at least one item, for
    every limit of at least 1 the list operation returns the first
    [min(limit, number of stored records)] items of the scan, however the
    store cuts the scan into pages, and without a limit it returns every
    stored item; the loop ends within as many iterations as there are
    records plus two, and the table is left as it was. *)
Theorem C9_list_events_limit limit st fuel :
  fault st = None →
  (0 < page_cap st)%nat →
  (∀ n, limit = Some n → 1 ≤ n) →
  (size (items st) + 2 ≤ fuel)%nat →
  ∃ l st',
    list_events fuel limit st = Some (Ok l, st')
    ∧ l = match limit with
          | Some n => take (Z.to_nat n) (table_scan st)
          | None => table_scan st
          end
    ∧ length l = match limit with
                 | Some n => Nat.min (Z.to_nat n) (size (items st))
                 | None => size (items st)
                 end
    ∧ items st' = items st.
Proof.
  intros Hf HC Hlim Hfuel.
  assert (limit_given limit = true → 1 ≤ default 0 limit) as Hpos.
  { destruct limit as [n|]; [|done]. intros _. by apply Hlim. }
  assert (limit_given limit = match limit with Some _ => true | None => false end)
    as Hg.
  { destruct limit as [n|]; [|done]. simpl. specialize (Hlim n eq_refl).
    apply negb_true_iff, Z.eqb_neq. lia. }
  set (kw := mkScan (if limit_given limit then limit else None) None).
  assert (∀ n, Limit kw = Some n → 1 ≤ n) as Hkw.
  { intros n. subst kw. simpl. destruct (limit_given limit); [apply Hlim|done]. }
  pose proof (scan_ok kw st Hf Hkw) as Hscan. cbv zeta in Hscan.
  change (default 0%nat (ExclusiveStartKey kw)) with 0%nat in Hscan.
  rewrite drop_0 in Hscan.
  set (all := table_scan st) in *.
  set (cap := match Limit kw with
              | Some n => Nat.min (Z.to_nat n) (page_cap st)
              | None => page_cap st
              end) in *.
  assert (1 ≤ cap)%nat as Hc1.
  { subst cap kw. simpl. rewrite Hg.
    destruct limit as [n|]; [|lia]. specialize (Hlim n eq_refl). lia. }
  assert (limit_given limit = true → (cap ≤ Z.to_nat (default 0%Z limit))%nat) as Hc2.
  { intros Hgt. subst cap kw. simpl. rewrite Hgt.
    destruct limit as [n|]; [|done]. simpl. lia. }
  pose proof (table_scan_length st) as HN. fold all in HN.
  destruct (list_events_loop_spec limit all (page_cap st) fuel Hpos HC
              (mkScanResponse (take cap all)
                 (if (cap <=? length all)%nat
                  then Some (0 + length (take cap all))%nat else None))
              (take cap all) (log Scan st) (Nat.min cap (length all)))
    as (st' & Hloop & Hitems & _ & _); try done.
  { destruct (Nat.le_ge_cases cap (length all)).
    - by rewrite Nat.min_l.
    - by rewrite Nat.min_r // !take_ge. }
  { lia. }
  { intros Hgt. specialize (Hc2 Hgt). lia. }
  { simpl. rewrite length_take. destruct (Nat.leb_spec cap (length all)).
    - left. split; [done|]. lia.
    - right. split; [done|]. split; lia. }
  exists (if limit_given limit then take (Z.to_nat (default 0%Z limit)) all else all), st'.
  split; [|split; [|split]].
  - rewrite /list_events -/kw Hscan /=. by rewrite Hloop.
  - rewrite Hg. by destruct limit.
  - rewrite Hg -HN. destruct limit as [n|]; [|done]. by rewrite length_take.
  - done.
Qed.

Lemma C9_list_events_limit_witness :
  fault sample_store = None
  ∧ (0 < page_cap sample_store)%nat
  ∧ size (items sample_store) = 5%nat
  ∧ ∃ l st',
      list_events 7 (Some 2) sample_store = Some (Ok l, st')
      ∧ length l = 2%nat
      ∧ calls st' = [Scan; Scan].
Proof.
  assert (size (items sample_store) = 5%nat) as Hn by (vm_compute; reflexivity).
  assert (∀ n, Some 2 = Some n → 1 ≤ n) as Hlim by (intros n [= <-]; lia).
  assert (size (items sample_store) + 2 ≤ 7)%nat as Hfuel by (rewrite Hn; lia).
  destruct (C9_list_events_limit (Some 2) sample_store 7 eq_refl
              (Nat.lt_0_1) Hlim Hfuel) as (l & st' & Hr & _ & Hlen & _).
  split; [reflexivity|]. split; [exact Nat.lt_0_1|]. split; [exact Hn|].
  exists l, st'. split; [exact Hr|]. split; [by rewrite Hlen Hn|].
  assert (calls <$> (snd <$> list_events 7 (Some 2) sample_store)
          = Some [Scan; Scan]) as Hc by (vm_compute; reflexivity).
  rewrite Hr in Hc. by injection Hc.
Defined.

(** *** Creation *)

Lemma length_ok_inv name lo hi s s' : length_ok name lo hi s = inr s' → s' = s.
Proof. unfold length_ok, field_error. repeat case_match; by try intros [= ->]. Qed.

(** A text field that passes validation is the trimmed, non-empty form of
    the string supplied. *)
Lemma text_not_empty_inv name lo hi body t :
  EventBase.text name lo hi EventBase.validate_not_empty body = inr t →
  ∃ s, body !! name = Some (JStr s) ∧ t = strip s ∧ t ≠ "" ∧ strip t = t.
Proof.
  unfold EventBase.text.
  destruct (body !! name) as [[]|]; try done.
  rewrite /after. destruct (length_ok _ _ _ _) as [|s'] eqn:El; [done|].
  apply length_ok_inv in El as ->. unfold EventBase.validate_not_empty.
  destruct (negb (str_truthy s) || negb (str_truthy (strip s))) eqn:E; [done|].
  intros [= <-]. exists s. split; [done|]. split; [done|]. split.
  - apply orb_false_iff in E as [_ E%negb_false_iff]. by destruct (strip s).
  - apply strip_idem.
Qed.

Lemma date_field_inv `{!Library} body d :
  EventBase.date_field body = inr d →
  body !! "date" = Some (JStr d)
  ∧ (fromisoformat (replace_Z d) = true ∨ strptime_ymd d = true).
Proof.
  unfold EventBase.date_field, EventBase.text.
  destruct (body !! "date") as [[]|]; try done.
  rewrite /= /EventBase.validate_date_format /value_error /field_error.
  destruct (fromisoformat (replace_Z s)) eqn:E1; [intros [= <-]; auto|].
  destruct (strptime_ymd s) eqn:E2; [intros [= <-]; auto|done].
Qed.

Lemma status_field_inv body s :
  EventBase.status_field body = inr s →
  s ∈ ["draft"; "published"; "active"; "cancelled"; "completed"].
Proof.
  unfold EventBase.status_field.
  destruct (body !! "status") as [j|]; [|done].
  destruct j; try done. intros Hs.
  assert (s0 = s) as ->.
  { revert Hs. unfold as_status, field_error. by case_match; intros [= ->]. }
  apply (as_status_accepts "status"). eauto.
Qed.

Lemma new_item_lookup id utcnow e :
  new_item id utcnow e !! "eventId" = Some (VStr id)
  ∧ new_item id utcnow e !! "createdAt" = Some (VStr utcnow)
  ∧ new_item id utcnow e !! "updatedAt" = Some (VStr utcnow)
  ∧ new_item id utcnow e !! "title" = Some (VStr (EventCreate.title e))
  ∧ new_item id utcnow e !! "description" = Some (VStr (EventCreate.description e))
  ∧ new_item id utcnow e !! "date" = Some (VStr (EventCreate.date e))
  ∧ new_item id utcnow e !! "location" = Some (VStr (EventCreate.location e))
  ∧ new_item id utcnow e !! "capacity" = Some (VInt (EventCreate.capacity e))
  ∧ new_item id utcnow e !! "organizer" = Some (VStr (EventCreate.organizer e))
  ∧ new_item id utcnow e !! "status" = Some (VStr (EventCreate.status e)).
Proof. destruct e. repeat split; vm_compute; reflexivity. Qed.

(** C8 (as amended). For every body that validates as an [EventCreate]
    with no [eventId], in a reachable store: when the generated identifier
    is not yet a key, create stores and returns a record under that
    identifier, with [createdAt] and [updatedAt] both equal to the time of
    the write, with title, description, location and organizer equal to the
    trimmed, non-empty form of the strings supplied, the status one of the
    five literals and the date as supplied (trimmed whenever the library's
    date parsers accept no surrounding whitespace); when the generated
    identifier is already a key, nothing is stored and the
    duplicate-identifier error is raised, so no record is ever created
    under an identifier in use. *)
Theorem C8_create_without_id `{!Library} uuid4 utcnow body e st :
  EventCreate.validate body = Ok e →
  EventCreate.eventId e = None →
  fault st = None →
  let item := new_item uuid4 utcnow e in
  (items st !! uuid4 = None →
   create_event uuid4 utcnow (EventCreate.model_dump e) st
   = (Ok item, set_items (<[uuid4 := item]> (items st)) (log PutItem st)))
  ∧ (is_Some (items st !! uuid4) →
     create_event uuid4 utcnow (EventCreate.model_dump e) st
     = (Raise (DatabaseException "Event with this ID already exists" None),
        log PutItem st))
  ∧ item !! "eventId" = Some (VStr uuid4)
  ∧ item !! "createdAt" = Some (VStr utcnow)
  ∧ item !! "updatedAt" = Some (VStr utcnow)
  ∧ (∃ s, body !! "title" = Some (JStr s)
          ∧ item !! "title" = Some (VStr (strip s))
          ∧ strip (strip s) = strip s ∧ strip s ≠ "")
  ∧ (∃ s, body !! "description" = Some (JStr s)
          ∧ item !! "description" = Some (VStr (strip s))
          ∧ strip (strip s) = strip s ∧ strip s ≠ "")
  ∧ (∃ s, body !! "location" = Some (JStr s)
          ∧ item !! "location" = Some (VStr (strip s))
          ∧ strip (strip s) = strip s ∧ strip s ≠ "")
  ∧ (∃ s, body !! "organizer" = Some (JStr s)
          ∧ item !! "organizer" = Some (VStr (strip s))
          ∧ strip (strip s) = strip s ∧ strip s ≠ "")
  ∧ (∃ s, item !! "status" = Some (VStr s) ∧ strip s = s
          ∧ s ∈ ["draft"; "published"; "active"; "cancelled"; "completed"])
  ∧ (∃ s, body !! "date" = Some (JStr s)
          ∧ item !! "date" = Some (VStr s)
          ∧ ((∀ d, fromisoformat d = true → no_outer_space d = true) →
             (∀ d, strptime_ymd d = true → no_outer_space d = true) →
             strip s = s)).
Proof.
  intros Hv Hid Hf item. subst item.
  pose proof (validated_id_truthy body e Hv) as Ht.
  pose proof (new_item_lookup uuid4 utcnow e)
    as (Le & Lc & Lu & L1 & L2 & L3 & L4 & _ & L6 & L7).
  apply EventCreate_validate_inv in Hv
    as (F1 & F2 & F3 & F4 & _ & F6 & F7 & _).
  apply text_not_empty_inv in F1 as (s1 & B1 & E1 & N1 & T1).
  apply text_not_empty_inv in F2 as (s2 & B2 & E2 & N2 & T2).
  apply text_not_empty_inv in F4 as (s4 & B4 & E4 & N4 & T4).
  apply text_not_empty_inv in F6 as (s6 & B6 & E6 & N6 & T6).
  apply date_field_inv in F3 as (B3 & D3).
  apply status_field_inv in F7.
  split; [|split].
  - intros Hfresh. rewrite create_event_unfold // Hid /=.
    assert (condition_holds (attribute_not_exists "eventId") (current st uuid4) = true)
      as Hc by (by rewrite not_exists_holds Hfresh).
    by rewrite (put_item_fresh _ uuid4 _ _ Hf Le Hc).
  - intros [it Hit]. rewrite create_event_unfold // Hid /=.
    assert (condition_holds (attribute_not_exists "eventId") (current st uuid4) = false)
      as Hc by (by rewrite not_exists_holds Hit).
    by rewrite (put_item_existing _ uuid4 _ _ Hf Le Hc).
  - split; [done|]. split; [done|]. split; [done|].
    split; [exists s1; by rewrite L1 -E1|].
    split; [exists s2; by rewrite L2 -E2|].
    split; [exists s4; by rewrite L4 -E4|].
    split; [exists s6; by rewrite L6 -E6|].
    split.
    + exists (EventCreate.status e). split; [done|]. split; [|done].
      repeat (apply elem_of_cons in F7 as [->|F7]; [reflexivity|]).
      by apply elem_of_nil in F7.
    + exists (EventCreate.date e). split; [done|]. split; [done|].
      intros P1 P2. apply strip_clean. destruct D3 as [D|D].
      * by apply replace_Z_no_outer_space, P1.
      * by apply P2.
Qed.

Lemma C8_create_without_id_witness :
  EventCreate.validate (H:=sample_library) (sample_body None) = Ok (sample_event None)
  ∧ EventCreate.eventId (sample_event None) = None
  ∧ fault sample_store = None
  ∧ items sample_store !! "3f2b8c1e-uuid" = None
  ∧ fst (create_event "3f2b8c1e-uuid" "2024-02-02T00:00:00Z"
           (EventCreate.model_dump (sample_event None)) sample_store)
    = Ok (new_item "3f2b8c1e-uuid" "2024-02-02T00:00:00Z" (sample_event None))
  ∧ new_item "3f2b8c1e-uuid" "2024-02-02T00:00:00Z" (sample_event None) !! "title"
    = Some (VStr (strip "  Tech Conference 2024 ")).
Proof.
  assert (EventCreate.validate (H:=sample_library) (sample_body None)
          = Ok (sample_event None)) as Hv by (vm_compute; reflexivity).
  assert (items sample_store !! "3f2b8c1e-uuid" = None) as Hfresh
    by (vm_compute; reflexivity).
  destruct (C8_create_without_id (H:=sample_library) "3f2b8c1e-uuid"
              "2024-02-02T00:00:00Z" (sample_body None) (sample_event None)
              sample_store Hv eq_refl eq_refl)
    as (Hok & _ & _ & _ & _ & (s & Hs & Ht & _) & _).
  split; [exact Hv|]. split; [reflexivity|]. split; [reflexivity|].
  split; [exact Hfresh|]. split; [by rewrite (Hok Hfresh)|].
  assert (sample_body None !! "title" = Some (JStr "  Tech Conference 2024 "))
    as Hb by (vm_compute; reflexivity).
  rewrite Hb in Hs. injection Hs as <-. exact Ht.
Defined.

(** C8, counterexample to the claim as stated. A body whose [eventId] is
    blank after trimming, every other field being valid, is not given a
    generated identifier: validation refuses it, the response is 422 and
    nothing is stored. The gateway alone, handed the same blank identifier,
    stores the record under that identifier, not under the generated one. *)
Lemma C8_counterexample_blank_id :
  strip "   " = ""
  ∧ EventCreate.validate (H:=sample_library) (sample_body None)
    = Ok (sample_event None)
  ∧ EventCreate.validate (H:=sample_library) (sample_body (Some (JStr "   ")))
    = Raise (RequestValidationError
               [ErrorDetail ["body"; "eventId"]
                  "Value error, Event ID cannot be empty or contain only whitespace"
                  "value_error"])
  ∧ status_code (fst (post_events (H:=sample_library) "3f2b8c1e-uuid"
                        "2024-02-02T00:00:00Z" (sample_body (Some (JStr "   ")))
                        sample_store)) = 422
  ∧ snd (post_events (H:=sample_library) "3f2b8c1e-uuid" "2024-02-02T00:00:00Z"
           (sample_body (Some (JStr "   "))) sample_store) = sample_store
  ∧ fst (create_event "3f2b8c1e-uuid" "2024-02-02T00:00:00Z"
           (EventCreate.model_dump (sample_event (Some "   "))) sample_store)
    = Ok (new_item "   " "2024-02-02T00:00:00Z" (sample_event (Some "   ")))
  ∧ new_item "   " "2024-02-02T00:00:00Z" (sample_event (Some "   ")) !! "eventId"
    ≠ Some (VStr "3f2b8c1e-uuid").
Proof.
  split; [reflexivity|]. split; [vm_compute; reflexivity|].
  split; [vm_compute; reflexivity|]. split; [vm_compute; reflexivity|].
  split; [vm_cast_no_check (eq_refl sample_store)|].
  split.
  - vm_cast_no_check
      (eq_refl (Ok (new_item "   " "2024-02-02T00:00:00Z" (sample_event (Some "   "))))).
  - vm_compute. discriminate.
Qed.

(** *** Responses *)




Lemma C4_update_empty_patch_is_get_witness :
  blank_id "e1" = false
  ∧ fault sample_store = None
  ∧ current sample_store "e1" = Some (sample_item "e1" "One")
  ∧ fst (update_event "2024-02-02T00:00:00Z" "e1" [] sample_store)
    = Ok (Some (sample_item "e1" "One"))
  ∧ items (snd (update_event "2024-02-02T00:00:00Z" "e1" [] sample_store))
    = items sample_store
  ∧ calls (snd (update_event "2024-02-02T00:00:00Z" "e1" [] sample_store))
    = [GetItem].
Proof.
  assert (current sample_store "e1" = Some (sample_item "e1" "One")) as Hc
    by (vm_cast_no_check (eq_refl (Some (sample_item "e1" "One")))).
  destruct (C4_update_empty_patch_is_get "2024-02-02T00:00:00Z" "e1"
              sample_store (sample_item "e1" "One") eq_refl eq_refl Hc)
    as (_ & Hr & Hi & Hl).
  split; [reflexivity|]. split; [reflexivity|]. split; [exact Hc|].
  split; [exact Hr|]. split; [exact Hi | exact Hl].
Defined.

(* ===================================================================== *)
(** ** Further properties of the gateway *)
(* ===================================================================== *)

Lemma put_item_items item cond st :
  items (snd (put_item item cond st)) = items st
  ∨ ∃ k, fst (put_item item cond st) = inr tt
         ∧ item !! "eventId" = Some (VStr k)
         ∧ fault st = None
         ∧ condition_holds cond (current st k) = true
         ∧ snd (put_item item cond st)
           = set_items (<[k := item]> (items st)) (log PutItem st).
Proof.
  unfold put_item. simpl. destruct (fault st) eqn:Hf; [by left|].
  destruct (item !! "eventId") as [[| k |]|] eqn:Hk; try by left.
  change (current (log PutItem st) k) with (current st k).
  destruct (condition_holds cond (current st k)) eqn:Hc; [|by left].
  right. by exists k.
Qed.




Lemma exists_holds_inv a cur :
  condition_holds (attribute_exists a) cur = true → is_Some cur.
Proof. destruct cur; [eauto|done]. Qed.

Lemma current_is_Some st k : is_Some (current st k) ↔ is_Some (items st !! k).
Proof. unfold current. by rewrite fmap_is_Some. Qed.



Lemma scan_items kw st : items (snd (scan kw st)) = items st.
Proof.
  unfold scan. simpl. destruct (fault st); [done|].
  by destruct (match Limit kw with Some n => n <? 1 | None => false end).
Qed.

Lemma scan_calls kw st : calls (snd (scan kw st)) = calls st ++ [Scan].
Proof.
  unfold scan. simpl. destruct (fault st); [done|].
  by destruct (match Limit kw with Some n => n <? 1 | None => false end).
Qed.

Lemma list_events_loop_items fuel limit response acc st r st' :
  list_events_loop fuel limit response acc st = Some (r, st') →
  items st' = items st.
Proof.
  revert response acc st.
  induction fuel as [|fuel IH]; intros response acc st; [done|].
  simpl. destruct (LastEvaluatedKey response) as [lek|]; [|by intros [= _ <-]].
  destruct (negb (limit_given limit) || _); [|by intros [= _ <-]].
  set (kw := mkScan _ _).
  pose proof (scan_items kw st) as Hs.
  destruct (scan kw st) as [[err|resp] st1]; simpl in Hs.
  - by intros [= _ <-].
  - intros Hl%IH. by rewrite Hl.
Qed.

(** X2. Reading never writes: whatever the identifier, the limit, the fuel
    and the state of the store, the table after [get_event] and after a
    [list_events] that returns is the table before. *)
Theorem reads_leave_table event_id fuel limit st :
  items (snd (get_event event_id st)) = items st
  ∧ (∀ r st', list_events fuel limit st = Some (r, st') → items st' = items st).
Proof.
  split.
  - unfold get_event. destruct (blank_id event_id); [done|].
    unfold get_item. simpl. by destruct (fault st) as [[]|].
  - intros r st'. unfold list_events.
    set (kw := mkScan _ _).
    pose proof (scan_items kw st) as Hs.
    destruct (scan kw st) as [[err|resp] st1]; simpl in Hs.
    + destruct err; by intros [= _ <-].
    + destruct (list_events_loop fuel limit resp (Items resp) st1)
        as [[[err|l] st2]|] eqn:Hl; [| |done].
      * apply list_events_loop_items in Hl.
        destruct err; intros [= _ <-]; congruence.
      * apply list_events_loop_items in Hl. intros [= _ <-]. congruence.
Qed.

Lemma reads_leave_table_witness :
  ∃ r st', list_events 7 (Some 2) sample_store = Some (r, st')
           ∧ items st' = items sample_store.
Proof.
  assert (is_Some (list_events 7 (Some 2) sample_store)) as [[r st'] Hr]
    by (apply (bool_decide_unpack _); vm_compute; exact I).
  exists r, st'. split; [exact Hr|].
  exact (proj2 (reads_leave_table "e1" 7 (Some 2) sample_store) r st' Hr).
Defined.

Lemma resolve_clauses_no_key names vals cl asg :
  resolve_clauses names vals cl = Some asg → "eventId" ∉ fst <$> asg.
Proof.
  revert asg. induction cl as [|[ref ph] cl IH]; intros asg.
  { intros [= <-]. apply not_elem_of_nil. }
  simpl. destruct (resolve_name names ref) as [a|]; [|done].
  destruct (vals !! ph) as [v|]; [|done].
  destruct (resolve_clauses names vals cl) as [r|]; [|done].
  destruct (String.eqb a "eventId" || str_in a (fst <$> r)) eqn:E; [done|].
  intros [= <-]. apply orb_false_iff in E as [E%String.eqb_neq _].
  rewrite fmap_cons. apply not_elem_of_cons. split; [done|]. by apply IH.
Qed.

(** X3. An update never creates or removes a record and never touches
    another record, whatever the patch and whatever the state of the store:
    the set of keys after it is the set before, and every other key holds
    what it held. When it returns a record, that record carries the
    identifier it was asked to update. *)
Theorem update_keeps_keys utcnow event_id d st :
  dom (items (snd (update_event utcnow event_id d st))) = dom (items st)
  ∧ (∀ k, k ≠ event_id →
          items (snd (update_event utcnow event_id d st)) !! k = items st !! k)
  ∧ (∀ new, fst (update_event utcnow event_id d st) = Ok (Some new) →
            new !! "eventId" = Some (VStr event_id)).
Proof.
  unfold update_event. destruct (blank_id event_id) eqn:Hb; [by repeat split|].
  destruct d as [|kv d].
  { rewrite /get_event Hb /get_item /=.
    destruct (fault st) as [[]|]; simpl; repeat split; try done.
    intros new [= Hc]. apply current_Some in Hc as (it & _ & ->).
    by rewrite /with_key lookup_insert_eq. }
  destruct (build_update utcnow (kv :: d)) as [[cl vals] names].
  unfold update_item. simpl.
  destruct (fault st) as [[]|]; simpl; try by repeat split.
  { by destruct (String.eqb _ _). }
  destruct (resolve_clauses names vals cl) as [asg|] eqn:Hr; [|by repeat split].
  change (current (log UpdateItem st) event_id) with (current st event_id).
  destruct (condition_holds _ (current st event_id)) eqn:Hc; [|by repeat split].
  apply exists_holds_inv, current_is_Some in Hc. simpl.
  split; [|split].
  - rewrite dom_insert_L. apply elem_of_dom in Hc.
    apply set_eq. intros x. rewrite elem_of_union elem_of_singleton.
    split; [intros [->|]; done | auto].
  - intros k Hk. by rewrite lookup_insert_ne.
  - intros new [= <-]. rewrite dict_over_notin.
    + by eapply resolve_clauses_no_key.
    + by rewrite /with_key lookup_insert_eq.
Qed.

(** X4. A create never overwrites: whatever the input, every record stored
    before the call is stored unchanged after it. *)
Theorem create_keeps_records uuid4 utcnow d st k it :
  items st !! k = Some it →
  items (snd (create_event uuid4 utcnow d st)) !! k = Some it.
Proof.
  intros Hk. unfold create_event.
  destruct (dict_pop "eventId" d) as [popped rest]. set (item := dict_over _ _).
  destruct (put_item_items item (attribute_not_exists "eventId") st)
    as [Hsame|(k' & Hok & Hid & Hf & Hc & Hst)].
  - destruct (put_item item _ st) as [[err|[]] st'] eqn:Hp; simpl in *.
    + destruct err; simpl; try congruence.
      destruct (String.eqb _ _); simpl; congruence.
    + congruence.
  - destruct (put_item item _ st) as [[err|[]] st'] eqn:Hp; simpl in *; [done|].
    subst st'. simpl. rewrite not_exists_holds in Hc.
    apply bool_decide_eq_true in Hc.
    rewrite lookup_insert_ne //. congruence.
Qed.

Lemma create_keeps_records_witness :
  items sample_store !! "e2" = Some (sample_item "e2" "Two")
  ∧ items (snd (create_event "3f2b8c1e-uuid" "2024-02-02T00:00:00Z"
                  (EventCreate.model_dump (sample_event (Some "e2"))) sample_store))
    !! "e2" = Some (sample_item "e2" "Two").
Proof.
  assert (items sample_store !! "e2" = Some (sample_item "e2" "Two")) as Hk
    by (vm_cast_no_check (eq_refl (Some (sample_item "e2" "Two")))).
  split; [exact Hk|].
  exact (create_keeps_records "3f2b8c1e-uuid" "2024-02-02T00:00:00Z" _
           sample_store "e2" _ Hk).
Defined.

(** X5. Round trip: when a create returns a record, that record carries a
    string identifier, is what the table holds under that identifier
    afterwards, and is what a get of that identifier returns (a get refuses
    a blank identifier, so the identifier must not be blank). *)
Theorem create_then_get uuid4 utcnow d st item st' :
  create_event uuid4 utcnow d st = (Ok item, st') →
  ∃ k, item !! "eventId" = Some (VStr k)
       ∧ items st !! k = None
       ∧ items st' = <[k := item]> (items st)
       ∧ current st' k = Some item
       ∧ (blank_id k = false →
          get_event k st' = (Ok (Some item), log GetItem st')).
Proof.
  unfold create_event.
  destruct (dict_pop "eventId" d) as [popped rest]. set (it := dict_over _ _).
  destruct (put_item_items it (attribute_not_exists "eventId") st)
    as [Hsame|(k & Hok & Hid & Hf & Hc & Hst)].
  - destruct (put_item it _ st) as [[err|[]] st1] eqn:Hp.
    + destruct err; try done. by destruct (String.eqb _ _).
    + intros [= <- <-]. exfalso. revert Hp. unfold put_item. simpl.
      destruct (fault st); [done|].
      destruct (it !! "eventId") as [[| k |]|]; try done.
      change (current (log PutItem st) k) with (current st k).
      destruct (condition_holds _ (current st k)) eqn:Hc; [|done].
      intros [= <-]. simpl in Hsame.
      rewrite not_exists_holds in Hc. apply bool_decide_eq_true in Hc.
      assert (items st !! k = Some it) as Hl by (rewrite -Hsame lookup_insert_eq //).
      congruence.
  - destruct (put_item it _ st) as [[err|[]] st1] eqn:Hp; simpl in *; [done|].
    intros [= <- <-]. exists k.
    rewrite not_exists_holds in Hc. apply bool_decide_eq_true in Hc.
    assert (current (set_items (<[k:=it]> (items st)) (log PutItem st)) k = Some it)
      as Hcur.
    { rewrite /current /= lookup_insert_eq /= /with_key insert_id //. }
    subst st1. split; [done|]. split; [done|]. split; [done|]. split; [done|].
    intros Hb. rewrite get_event_ok // Hcur //.
Qed.

Lemma create_then_get_witness :
  ∃ item st',
    create_event "3f2b8c1e-uuid" "2024-02-02T00:00:00Z"
      (EventCreate.model_dump (sample_event None)) sample_store = (Ok item, st')
    ∧ item !! "eventId" = Some (VStr "3f2b8c1e-uuid")
    ∧ fst (get_event "3f2b8c1e-uuid" st') = Ok (Some item).
Proof.
  destruct (create_event "3f2b8c1e-uuid" "2024-02-02T00:00:00Z"
              (EventCreate.model_dump (sample_event None)) sample_store)
    as [r st'] eqn:Hr.
  assert (is_Some (match r with Ok item => Some item | Raise _ => None end))
    as [item Hitem].
  { replace r with (fst (create_event "3f2b8c1e-uuid" "2024-02-02T00:00:00Z"
                           (EventCreate.model_dump (sample_event None)) sample_store))
      by (by rewrite Hr).
    apply (bool_decide_unpack _). vm_compute. exact I. }
  destruct r as [item'|]; [|done]. injection Hitem as ->.
  destruct (create_then_get _ _ _ _ _ _ Hr) as (k & Hid & _ & _ & _ & Hget).
  assert (item !! "eventId" = Some (VStr "3f2b8c1e-uuid")) as Hid'.
  { replace item with (new_item "3f2b8c1e-uuid" "2024-02-02T00:00:00Z" (sample_event None)).
    - apply new_item_eventId.
    - assert (fst (create_event "3f2b8c1e-uuid" "2024-02-02T00:00:00Z"
                     (EventCreate.model_dump (sample_event None)) sample_store)
              = Ok (new_item "3f2b8c1e-uuid" "2024-02-02T00:00:00Z" (sample_event None)))
        as Hc by (vm_cast_no_check
                    (eq_refl (Ok (new_item "3f2b8c1e-uuid" "2024-02-02T00:00:00Z"
                                    (sample_event None))))).
      rewrite Hr in Hc. by injection Hc. }
  exists item, st'. split; [done|]. split; [exact Hid'|].
  rewrite Hid' in Hid. injection Hid as <-. by rewrite Hget.
Defined.

Lemma update_keeps_keys_witness :
  "e2" ≠ "e1"
  ∧ items (snd (update_event "2024-02-02T00:00:00Z" "e1" [("title", VStr "X")]
                  sample_store)) !! "e2" = items sample_store !! "e2"
  ∧ dom (items (snd (update_event "2024-02-02T00:00:00Z" "e1" [("title", VStr "X")]
                       sample_store))) = dom (items sample_store).
Proof.
  assert ("e2" ≠ "e1") as Hne by discriminate.
  destruct (update_keeps_keys "2024-02-02T00:00:00Z" "e1" [("title", VStr "X")]
              sample_store) as (Hd & Hk & _).
  split; [exact Hne|]. split; [exact (Hk "e2" Hne) | exact Hd].
Defined.

(** X6. Deleting a stored record, by a well-formed identifier in a reachable
    store, returns [True], removes that record and no other, with a single
    conditional delete; a get of the identifier then finds nothing, a second
    delete raises [EventNotFoundException], and the table holds one record
    fewer. *)
Theorem delete_existing event_id st it :
  blank_id event_id = false →
  fault st = None →
  items st !! event_id = Some it →
  let st' := snd (delete_event event_id st) in
  fst (delete_event event_id st) = Ok true
  ∧ items st' = delete event_id (items st)
  ∧ calls st' = calls st ++ [DeleteItem]
  ∧ size (items st) = S (size (items st'))
  ∧ (∀ k, k ≠ event_id → items st' !! k = items st !! k)
  ∧ fst (get_event event_id st') = Ok None
  ∧ fst (Routes.get_event event_id st') = Raise (EventNotFoundException event_id)
  ∧ fst (delete_event event_id st') = Raise (EventNotFoundException event_id).
Proof.
  intros Hb Hf Hit st'. subst st'.
  assert (delete_event event_id st
          = (Ok true, set_items (delete event_id (items st)) (log DeleteItem st)))
    as ->.
  { rewrite /delete_event Hb /delete_item /= Hf.
    change (current (log DeleteItem st) event_id) with (current st event_id).
    assert (current st event_id = Some (with_key event_id it)) as Hc
      by by rewrite /current Hit.
    by rewrite (exists_holds _ _ _ Hc). }
  simpl. split; [done|]. split; [done|]. split; [done|].
  split; [|split; [|split; [|split]]].
  - rewrite -{1}(insert_delete_id (items st) event_id it) //.
    rewrite map_size_insert_None //. apply lookup_delete_eq.
  - intros k Hk. by rewrite lookup_delete_ne.
  - rewrite get_event_ok // /current /= lookup_delete_eq //.
  - rewrite /Routes.get_event get_event_ok // /current /= lookup_delete_eq //.
  - rewrite delete_event_missing //. apply lookup_delete_eq.
Qed.

Lemma delete_existing_witness :
  blank_id "e1" = false
  ∧ fault sample_store = None
  ∧ is_Some (items sample_store !! "e1")
  ∧ fst (delete_event "e1" sample_store) = Ok true
  ∧ size (items (snd (delete_event "e1" sample_store))) = 4%nat
  ∧ fst (get_event "e1" (snd (delete_event "e1" sample_store))) = Ok None.
Proof.
  assert (is_Some (items sample_store !! "e1")) as Hs
    by (apply (bool_decide_unpack _); vm_compute; exact I).
  assert (size (items sample_store) = 5%nat) as Hn by (vm_compute; reflexivity).
  destruct Hs as [it Hit].
  destruct (delete_existing "e1" sample_store it eq_refl eq_refl Hit)
    as (Hr & _ & _ & Hsz & _ & Hg & _).
  split; [reflexivity|]. split; [reflexivity|]. split; [by exists it|].
  split; [exact Hr|]. split; [|exact Hg].
  rewrite Hn in Hsz. lia.
Defined.





Lemma lstrip_all_space s : all_space s = true → lstrip s = "".
Proof.
  induction s as [|c r IH]; [done|]. simpl.
  destruct (isspace c); [apply IH|done].
Qed.

Lemma lstrip_not_all_space s :
  all_space s = false → ∃ c r, lstrip s = String c r ∧ isspace c = false.
Proof.
  induction s as [|c r IH]; [done|]. simpl.
  destruct (isspace c) eqn:Hc; [apply IH|]. intros _. by exists c, r.
Qed.

(** The identifiers the gateway refuses are the empty string and the
    strings made of whitespace only. *)
Lemma blank_id_all_space s : blank_id s = all_space s.
Proof.
  unfold blank_id, strip. destruct (all_space s) eqn:Ha.
  - rewrite lstrip_all_space //. by destruct s.
  - destruct (lstrip_not_all_space s Ha) as (c & r & -> & Hc).
    rewrite rstrip_cons_clean //. by destruct s.
Qed.

(** X9. An identifier that is empty or made of whitespace only never reaches
    the store: get, update and delete each raise
    [DatabaseException("Event ID cannot be empty")] without an original
    error and leave the store, its request log included, untouched; every
    other identifier is let through to the store. *)
Theorem blank_identifier_refused utcnow event_id d st :
  let e := DatabaseException "Event ID cannot be empty" None in
  (all_space event_id = true →
   get_event event_id st = (Raise e, st)
   ∧ update_event utcnow event_id d st = (Raise e, st)
   ∧ delete_event event_id st = (Raise e, st))
  ∧ (all_space event_id = false →
     calls (snd (get_event event_id st)) = calls st ++ [GetItem]
     ∧ calls (snd (delete_event event_id st)) = calls st ++ [DeleteItem]).
Proof.
  intros e. subst e. split; intros Ha.
  - by rewrite /get_event /update_event /delete_event blank_id_all_space Ha.
  - rewrite /get_event /delete_event blank_id_all_space Ha /get_item /delete_item /=.
    split.
    + by destruct (fault st) as [[]|].
    + destruct (fault st) as [[]|]; simpl; try done.
      * by destruct (String.eqb _ _).
      * by destruct (condition_holds _ _).
Qed.

Lemma blank_identifier_refused_witness :
  all_space " " = true
  ∧ get_event " " sample_store
    = (Raise (DatabaseException "Event ID cannot be empty" None), sample_store)
  ∧ all_space "e1" = false
  ∧ calls (snd (get_event "e1" sample_store)) = [GetItem].
Proof.
  destruct (blank_identifier_refused "t" " " [] sample_store) as [Hb _].
  destruct (blank_identifier_refused "t" "e1" [] sample_store) as [_ Hl].
  split; [reflexivity|]. split; [exact (proj1 (Hb eq_refl))|].
  split; [reflexivity|]. exact (proj1 (Hl eq_refl)).
Defined.

Lemma list_events_loop_zero fuel response acc st :
  list_events_loop fuel (Some 0) response acc st
  = list_events_loop fuel None response acc st.
Proof.
  revert response acc st. induction fuel as [|fuel IH]; intros; [done|].
  simpl. destruct (LastEvaluatedKey response); [|done].
  destruct (scan _ st) as [[err|resp] st1]; [done|]. apply IH.
Qed.

(** X10. A limit of 0 is no limit: [list_events] with [limit=0] does exactly
    what it does with no limit, and so returns the whole table when the
    store is reachable. *)
Theorem list_events_limit_zero fuel st :
  list_events fuel (Some 0) st = list_events fuel None st.
Proof.
  unfold list_events. simpl.
  destruct (scan _ st) as [[err|resp] st1]; [done|].
  by rewrite list_events_loop_zero.
Qed.

(** What [list_events] returns from a reachable store (shared by the
    statements about the list route). *)
Lemma list_events_returns limit st fuel :
  fault st = None →
  (0 < page_cap st)%nat →
  (∀ n, limit = Some n → 1 ≤ n) →
  (size (items st) + 2 ≤ fuel)%nat →
  ∃ st',
    list_events fuel limit st
    = Some (Ok (match limit with
                | Some n => take (Z.to_nat n) (table_scan st)
                | None => table_scan st
                end), st')
    ∧ items st' = items st.
Proof.
  intros Hf HC Hlim Hfuel.
  assert (limit_given limit = true → 1 ≤ default 0 limit) as Hpos.
  { destruct limit as [n|]; [|done]. intros _. by apply Hlim. }
  assert (limit_given limit = match limit with Some _ => true | None => false end)
    as Hg.
  { destruct limit as [n|]; [|done]. simpl. specialize (Hlim n eq_refl).
    apply negb_true_iff, Z.eqb_neq. lia. }
  set (kw := mkScan (if limit_given limit then limit else None) None).
  assert (∀ n, Limit kw = Some n → 1 ≤ n) as Hkw.
  { intros n. subst kw. simpl. destruct (limit_given limit); [apply Hlim|done]. }
  pose proof (scan_ok kw st Hf Hkw) as Hscan. cbv zeta in Hscan.
  change (default 0%nat (ExclusiveStartKey kw)) with 0%nat in Hscan.
  rewrite drop_0 in Hscan.
  pose proof (table_scan_length st) as HN.
  set (all := table_scan st) in *.
  set (cap := match Limit kw with
              | Some n => Nat.min (Z.to_nat n) (page_cap st)
              | None => page_cap st
              end) in *.
  assert (1 ≤ cap)%nat as Hc1.
  { subst cap kw. simpl. rewrite Hg.
    destruct limit as [n|]; [|lia]. specialize (Hlim n eq_refl). lia. }
  assert (limit_given limit = true → (cap ≤ Z.to_nat (default 0%Z limit))%nat) as Hc2.
  { intros Hgt. subst cap kw. simpl. rewrite Hgt.
    destruct limit as [n|]; [|done]. simpl. lia. }
  destruct (list_events_loop_spec limit all (page_cap st) fuel Hpos HC
              (mkScanResponse (take cap all)
                 (if (cap <=? length all)%nat
                  then Some (0 + length (take cap all))%nat else None))
              (take cap all) (log Scan st) (Nat.min cap (length all)))
    as (st' & Hloop & Hitems & _ & _); try done.
  { destruct (Nat.le_ge_cases cap (length all)).
    - by rewrite Nat.min_l.
    - by rewrite Nat.min_r // !take_ge. }
  { lia. }
  { intros Hgt. specialize (Hc2 Hgt). lia. }
  { simpl. rewrite length_take. destruct (Nat.leb_spec cap (length all)).
    - left. split; [done|]. lia.
    - right. split; [done|]. split; lia. }
  exists st'. split; [|done].
  rewrite /list_events -/kw Hscan /= Hloop Hg. by destruct limit.
Qed.

(** X11. The list route filters after the gateway has applied the limit:
    with a non-empty status filter it returns, of the first
    [min(limit, number of records)] items of the scan, those whose status
    is the filter, so it may return fewer than [limit] items although more
    records match; with no filter, or an empty one, it returns the
    gateway's list as it is. *)
Theorem list_route_filters_after_limit fuel limit status_filter st :
  fault st = None →
  (0 < page_cap st)%nat →
  (∀ n, limit = Some n → 1 ≤ n) →
  (size (items st) + 2 ≤ fuel)%nat →
  let listed := match limit with
                | Some n => take (Z.to_nat n) (table_scan st)
                | None => table_scan st
                end in
  ∃ st',
    Routes.list_events fuel limit status_filter st
    = Some (Ok (match status_filter with
                | Some f =>
                    if str_truthy f
                    then filter (λ e : Item, e !! "status" = Some (VStr f)) listed
                    else listed
                | None => listed
                end), st')
    ∧ items st' = items st.
Proof.
  intros Hf HC Hlim Hfuel listed. subst listed.
  destruct (list_events_returns limit st fuel Hf HC Hlim Hfuel) as (st' & Hl & Hi).
  exists st'. split; [|done]. rewrite /Routes.list_events Hl.
  destruct status_filter as [f|]; [|done]. by destruct (str_truthy f).
Qed.

Lemma list_route_filters_after_limit_witness :
  fault sample_store = None
  ∧ (0 < page_cap sample_store)%nat
  ∧ ∃ st',
      Routes.list_events 7 (Some 2) (Some "draft") sample_store
      = Some (Ok (filter (λ e : Item, e !! "status" = Some (VStr "draft"))
                    (take 2 (table_scan sample_store))), st').
Proof.
  assert (size (items sample_store) = 5%nat) as Hn by (vm_compute; reflexivity).
  assert (∀ n, Some 2 = Some n → 1 ≤ n) as Hlim by (intros n [= <-]; lia).
  assert (size (items sample_store) + 2 ≤ 7)%nat as Hfuel by (rewrite Hn; lia).
  destruct (list_route_filters_after_limit 7 (Some 2) (Some "draft") sample_store
              eq_refl Nat.lt_0_1 Hlim Hfuel) as (st' & Hr & _).
  split; [reflexivity|]. split; [exact Nat.lt_0_1|]. by exists st'.
Defined.

(** X12. The health check never raises and costs one request: whatever the
    size of the table, it sends the store a single scan; when the store
    answers it reports healthy, and when the store meets any error it
    reports unhealthy with the exception the listing raised. The table is
    never changed. *)
Theorem health_check_one_scan version fuel st :
  (fault st = None → (0 < page_cap st)%nat → (1 ≤ fuel)%nat →
   Routes.health_check version fuel st
   = Some (Routes.healthy_connected version, log Scan st))
  ∧ (∀ e, fault st = Some e →
          ∃ e', Routes.health_check version fuel st
                = Some (Routes.unhealthy_disconnected e', log Scan st)).
Proof.
  split.
  - intros Hf HC Hfuel. destruct fuel as [|fuel]; [lia|].
    rewrite /Routes.health_check /list_events /scan /= Hf.
    destruct (page_cap st) as [|c]; [lia|].
    change (table_scan (log Scan st)) with (table_scan st).
    by destruct (table_scan st) as [|x l].
  - intros e Hf. rewrite /Routes.health_check /list_events /scan /= Hf.
    destruct e; eauto.
Qed.

Lemma health_check_one_scan_witness :
  fault sample_store = None ∧ (0 < page_cap sample_store)%nat
  ∧ Routes.health_check "1.0.0" 1 sample_store
    = Some (Routes.healthy_connected "1.0.0", log Scan sample_store)
  ∧ ∃ e', Routes.health_check "1.0.0" 0
            (mkStore ∅ 1 (Some (BotoCoreError "endpoint unreachable")) [])
          = Some (Routes.unhealthy_disconnected e',
                  log Scan (mkStore ∅ 1 (Some (BotoCoreError "endpoint unreachable")) [])).
Proof.
  destruct (health_check_one_scan "1.0.0" 1 sample_store) as [Hh _].
  destruct (health_check_one_scan "1.0.0" 0
              (mkStore ∅ 1 (Some (BotoCoreError "endpoint unreachable")) []))
    as [_ Hu].
  split; [reflexivity|]. split; [exact Nat.lt_0_1|].
  split; [exact (Hh eq_refl Nat.lt_0_1 (le_n 1))|].
  exact (Hu _ eq_refl).
Defined.



(* ===================================================================== *)
(** ** Further properties of validation *)
(* ===================================================================== *)

Lemma not_empty_all_space s :
  negb (str_truthy s) || negb (str_truthy (strip s)) = all_space s.
Proof. apply blank_id_all_space. Qed.

Lemma length_ok_spec name lo hi s :
  (∃ es, length_ok name (Some lo) (Some hi) s = inl es
         ∧ ∃ m ty, es = [ErrorDetail ["body"; name] m ty]
         ∧ (len s < lo ∨ hi < len s))
  ∨ (length_ok name (Some lo) (Some hi) s = inr s ∧ lo ≤ len s ≤ hi).
Proof.
  unfold length_ok, field_error.
  destruct (Z.ltb_spec (len s) lo); [left; eexists; split; [done|]; eauto|].
  destruct (Z.gtb_spec (len s) hi); [left; eexists; split; [done|]; eauto|].
  right. split; [done|lia].
Qed.

Lemma all_space_nonempty s : all_space s = false → 1 ≤ len s.
Proof. destruct s; [done|]. unfold len. simpl. lia. Qed.

(** When a required text field passes validation. *)
Lemma text_accepts_iff name hi body t :
  EventBase.text name (Some 1) (Some hi) EventBase.validate_not_empty body = inr t
  ↔ ∃ s, body !! name = Some (JStr s) ∧ len s ≤ hi
         ∧ all_space s = false ∧ t = strip s.
Proof.
  unfold EventBase.text, after, EventBase.validate_not_empty. split.
  - destruct (body !! name) as [[]|]; try done.
    destruct (length_ok_spec name 1 hi s) as [(es & -> & _)|[-> Hl]]; [done|].
    rewrite not_empty_all_space.
    destruct (all_space s) eqn:Ha; [done|]. intros [= <-]. exists s.
    split; [done|]. split; [lia|]. done.
  - intros (s & -> & Hl & Ha & ->).
    destruct (length_ok_spec name 1 hi s) as [(es & _ & m & ty & _ & Hbad)|[-> _]].
    + apply all_space_nonempty in Ha. lia.
    + by rewrite not_empty_all_space Ha.
Qed.

(** X14. A required text field ([title], [description], [location],
    [organizer]) is accepted exactly when the body gives a string that is
    not made of whitespace only and whose length as received, before
    trimming, is within the bound; the value kept is the trimmed string. *)
Theorem text_field_accepts name hi body t :
  EventBase.text name (Some 1) (Some hi) EventBase.validate_not_empty body = inr t
  ↔ ∃ s, body !! name = Some (JStr s) ∧ len s ≤ hi
         ∧ all_space s = false ∧ t = strip s.
Proof. apply text_accepts_iff. Qed.

Lemma text_field_accepts_witness :
  EventBase.text "title" (Some 1) (Some 200) EventBase.validate_not_empty
    (sample_body None) = inr "Tech Conference 2024"
  ∧ ∃ s, sample_body None !! "title" = Some (JStr s) ∧ len s ≤ 200
         ∧ all_space s = false ∧ "Tech Conference 2024" = strip s.
Proof.
  assert (EventBase.text "title" (Some 1) (Some 200) EventBase.validate_not_empty
            (sample_body None) = inr "Tech Conference 2024") as Ht
    by (vm_compute; reflexivity).
  split; [exact Ht|].
  exact (proj1 (text_field_accepts "title" 200 (sample_body None) _) Ht).
Defined.

Lemma EventCreate_validate_cases `{!Library} body :
  (∃ e, EventCreate.validate body = Ok e)
  ∨ EventCreate.validate body
    = Raise (RequestValidationError
               (errors_of (EventBase.title_field body)
                ++ errors_of (EventBase.description_field body)
                ++ errors_of (EventBase.date_field body)
                ++ errors_of (EventBase.location_field body)
                ++ errors_of (EventBase.capacity_field body)
                ++ errors_of (EventBase.organizer_field body)
                ++ errors_of (EventBase.status_field body)
                ++ errors_of (EventCreate.eventId_field body))).
Proof.
  unfold EventCreate.validate.
  destruct (EventBase.title_field body); [by right|].
  destruct (EventBase.description_field body); [by right|].
  destruct (EventBase.date_field body); [by right|].
  destruct (EventBase.location_field body); [by right|].
  destruct (EventBase.capacity_field body); [by right|].
  destruct (EventBase.organizer_field body); [by right|].
  destruct (EventBase.status_field body); [by right|].
  destruct (EventCreate.eventId_field body); [by right|].
  left. by eexists.
Qed.

Lemma EventUpdate_validate_cases `{!Library} body :
  (∃ u, EventUpdate.validate body = Ok u
        ∧ EventUpdate.text "title" (Some 1) (Some 200)
            EventUpdate.validate_not_empty body = inr (EventUpdate.title u)
        ∧ EventUpdate.text "description" (Some 1) (Some 1000)
            EventUpdate.validate_not_empty body = inr (EventUpdate.description u)
        ∧ EventUpdate.text "date" None None
            EventUpdate.validate_date_format body = inr (EventUpdate.date u)
        ∧ EventUpdate.text "location" (Some 1) (Some 200)
            EventUpdate.validate_not_empty body = inr (EventUpdate.location u)
        ∧ EventUpdate.capacity_field body = inr (EventUpdate.capacity u)
        ∧ EventUpdate.text "organizer" (Some 1) (Some 100)
            EventUpdate.validate_not_empty body = inr (EventUpdate.organizer u)
        ∧ EventUpdate.status_field body = inr (EventUpdate.status u))
  ∨ EventUpdate.validate body
    = Raise (RequestValidationError
               (errors_of (EventUpdate.text "title" (Some 1) (Some 200)
                             EventUpdate.validate_not_empty body)
                ++ errors_of (EventUpdate.text "description" (Some 1) (Some 1000)
                                EventUpdate.validate_not_empty body)
                ++ errors_of (EventUpdate.text "date" None None
                                EventUpdate.validate_date_format body)
                ++ errors_of (EventUpdate.text "location" (Some 1) (Some 200)
                                EventUpdate.validate_not_empty body)
                ++ errors_of (EventUpdate.capacity_field body)
                ++ errors_of (EventUpdate.text "organizer" (Some 1) (Some 100)
                                EventUpdate.validate_not_empty body)
                ++ errors_of (EventUpdate.status_field body))).
Proof.
  unfold EventUpdate.validate.
  destruct (EventUpdate.text "title" _ _ _ body); [by right|].
  destruct (EventUpdate.text "description" _ _ _ body); [by right|].
  destruct (EventUpdate.text "date" _ _ _ body); [by right|].
  destruct (EventUpdate.text "location" _ _ _ body); [by right|].
  destruct (EventUpdate.capacity_field body); [by right|].
  destruct (EventUpdate.text "organizer" _ _ _ body); [by right|].
  destruct (EventUpdate.status_field body); [by right|].
  left. eexists. by repeat split.
Qed.

Lemma create_text_blank name hi body s :
  body !! name = Some (JStr s) → all_space s = true →
  ∃ m ty, EventBase.text name (Some 1) (Some hi) EventBase.validate_not_empty body
          = inl [ErrorDetail ["body"; name] m ty].
Proof.
  intros Hb Ha. rewrite /EventBase.text Hb /after.
  destruct (length_ok_spec name 1 hi s) as [(es & -> & m & ty & -> & _)|[-> _]];
    [eauto|].
  rewrite /EventBase.validate_not_empty not_empty_all_space Ha. eauto.
Qed.

Lemma update_text_blank name hi body s :
  body !! name = Some (JStr s) → all_space s = true →
  ∃ m ty, EventUpdate.text name (Some 1) (Some hi) EventUpdate.validate_not_empty body
          = inl [ErrorDetail ["body"; name] m ty].
Proof.
  intros Hb Ha. rewrite /EventUpdate.text Hb /after.
  destruct (length_ok_spec name 1 hi s) as [(es & -> & m & ty & -> & _)|[-> _]];
    [eauto|].
  rewrite /EventUpdate.validate_not_empty not_empty_all_space Ha. eauto.
Qed.

(** X15. A text field that is empty or made of whitespace only is always
    refused, in a create body and in an update body alike, whatever the
    other members of the body: validation raises a request-validation error
    with an entry located at that field. *)
Theorem blank_text_rejected `{!Library} name body s :
  name ∈ ["title"; "description"; "location"; "organizer"] →
  body !! name = Some (JStr s) →
  all_space s = true →
  (∃ errors d, EventCreate.validate body = Raise (RequestValidationError errors)
               ∧ d ∈ errors ∧ loc d = ["body"; name])
  ∧ (∃ errors d, EventUpdate.validate body = Raise (RequestValidationError errors)
                 ∧ d ∈ errors ∧ loc d = ["body"; name]).
Proof.
  intros Hname Hb Ha. split.
  - destruct (EventCreate_validate_cases body) as [[e He]|Hr].
    { exfalso. apply EventCreate_validate_inv in He
        as (F1 & F2 & _ & F4 & _ & F6 & _).
      repeat (apply elem_of_cons in Hname as [->|Hname];
              [match goal with
               | F : _ body = inr _ |- _ =>
                   apply text_accepts_iff in F as (s' & Hs' & _ & Ha' & _);
                   rewrite Hb in Hs'; injection Hs' as <-; congruence
               end|]).
      by apply elem_of_nil in Hname. }
    rewrite Hr.
    assert (∃ m ty, ErrorDetail ["body"; name] m ty
                    ∈ errors_of (EventBase.title_field body)
                      ++ errors_of (EventBase.description_field body)
                      ++ errors_of (EventBase.date_field body)
                      ++ errors_of (EventBase.location_field body)
                      ++ errors_of (EventBase.capacity_field body)
                      ++ errors_of (EventBase.organizer_field body)
                      ++ errors_of (EventBase.status_field body)
                      ++ errors_of (EventCreate.eventId_field body))
      as (m & ty & Hin).
    { unfold EventBase.title_field, EventBase.description_field,
        EventBase.location_field, EventBase.organizer_field.
      repeat (apply elem_of_cons in Hname as [->|Hname];
              [match goal with
               | |- context [EventBase.text ?n (Some 1) (Some ?hi) _ body] =>
                   destruct (create_text_blank n hi body s Hb Ha) as (m & ty & ->)
               end;
               exists m, ty; rewrite !elem_of_app /= !list_elem_of_singleton; tauto|]).
      by apply elem_of_nil in Hname. }
    by eexists _, _.
  - destruct (EventUpdate_validate_cases body)
      as [(u & _ & F1 & F2 & _ & F4 & _ & F6 & _)|Hr].
    { exfalso.
      repeat (apply elem_of_cons in Hname as [->|Hname];
              [match goal with
               | F : EventUpdate.text ?n _ (Some ?hi) _ body = inr _ |- _ =>
                   destruct (update_text_blank n hi body s Hb Ha) as (m & ty & Hx);
                   congruence
               end|]).
      by apply elem_of_nil in Hname. }
    rewrite Hr.
    assert (∃ m ty, ErrorDetail ["body"; name] m ty
                    ∈ errors_of (EventUpdate.text "title" (Some 1) (Some 200)
                                   EventUpdate.validate_not_empty body)
                      ++ errors_of (EventUpdate.text "description" (Some 1) (Some 1000)
                                      EventUpdate.validate_not_empty body)
                      ++ errors_of (EventUpdate.text "date" None None
                                      EventUpdate.validate_date_format body)
                      ++ errors_of (EventUpdate.text "location" (Some 1) (Some 200)
                                      EventUpdate.validate_not_empty body)
                      ++ errors_of (EventUpdate.capacity_field body)
                      ++ errors_of (EventUpdate.text "organizer" (Some 1) (Some 100)
                                      EventUpdate.validate_not_empty body)
                      ++ errors_of (EventUpdate.status_field body))
      as (m & ty & Hin).
    { repeat (apply elem_of_cons in Hname as [->|Hname];
              [match goal with
               | |- context [EventUpdate.text ?n (Some 1) (Some ?hi)
                               EventUpdate.validate_not_empty body] =>
                   destruct (update_text_blank n hi body s Hb Ha) as (m & ty & ->)
               end;
               exists m, ty; rewrite !elem_of_app /= !list_elem_of_singleton; tauto|]).
      by apply elem_of_nil in Hname. }
    by eexists _, _.
Qed.

Lemma blank_text_rejected_witness :
  "title" ∈ ["title"; "description"; "location"; "organizer"]
  ∧ ({[ "title" := JStr "   " ]} : gmap string json) !! "title" = Some (JStr "   ")
  ∧ all_space "   " = true
  ∧ ∃ errors d,
      EventUpdate.validate (H:=sample_library) {[ "title" := JStr "   " ]}
      = Raise (RequestValidationError errors)
      ∧ d ∈ errors ∧ loc d = ["body"; "title"].
Proof.
  assert ("title" ∈ ["title"; "description"; "location"; "organizer"]) as Hn
    by apply list_elem_of_here.
  assert (({[ "title" := JStr "   " ]} : gmap string json) !! "title"
          = Some (JStr "   ")) as Hb by (vm_compute; reflexivity).
  split; [exact Hn|]. split; [exact Hb|]. split; [reflexivity|].
  exact (proj2 (blank_text_rejected (H:=sample_library) "title" _ "   "
                  Hn Hb eq_refl)).
Defined.

(** X16. Capacity bounds agree between the two modules: [validate_capacity]
    with bounds [lo] and [hi] accepts exactly the integers between them,
    both included, and the record model accepts a JSON integer exactly when
    [validate_capacity] with its default bounds 1 and 100000 does; so 0 and
    100001 are refused and 1 and 100000 accepted by both. *)
Theorem capacity_bounds `{!Library} c lo hi body n :
  (validate_capacity c lo hi = Ok true ↔ lo ≤ c ≤ hi)
  ∧ (body !! "capacity" = Some (JInt n) →
     (EventBase.capacity_field body = inr n ↔ validate_capacity n 1 100000 = Ok true)
     ∧ (EventUpdate.capacity_field body = inr (Some (Some n))
        ↔ validate_capacity n 1 100000 = Ok true)).
Proof.
  assert (∀ c lo hi, validate_capacity c lo hi = Ok true ↔ lo ≤ c ≤ hi) as Hv.
  { clear. intros c lo hi. unfold validate_capacity.
    destruct (Z.ltb_spec c lo); [split; [done|lia]|].
    destruct (Z.gtb_spec c hi); [split; [done|lia]|]. split; [lia|done]. }
  split; [apply Hv|]. intros Hb.
  rewrite Hv /EventBase.capacity_field /EventUpdate.capacity_field Hb /=.
  rewrite /range_ok /field_error /after /EventBase.validate_capacity_range
    /EventUpdate.validate_capacity_range /value_error /field_error.
  destruct (Z.gtb_spec n 0); simpl; [|split; split; (done || lia)].
  destruct (Z.leb_spec n 100000); simpl; [|split; split; (done || lia)].
  destruct (Z.ltb_spec n 1); [lia|]. destruct (Z.gtb_spec n 100000); [lia|].
  split; split; (done || lia).
Qed.

Lemma capacity_bounds_witness :
  ({[ "capacity" := JInt 100000 ]} : gmap string json) !! "capacity"
  = Some (JInt 100000)
  ∧ validate_capacity 100000 1 100000 = Ok true
  ∧ EventBase.capacity_field (H:=sample_library) {[ "capacity" := JInt 100000 ]}
    = inr 100000
  ∧ validate_capacity 100001 1 100000 ≠ Ok true
  ∧ validate_capacity 0 1 100000 ≠ Ok true.
Proof.
  assert (({[ "capacity" := JInt 100000 ]} : gmap string json) !! "capacity"
          = Some (JInt 100000)) as Hb by (vm_compute; reflexivity).
  destruct (capacity_bounds (H:=sample_library) 100000 1 100000
              {[ "capacity" := JInt 100000 ]} 100000) as [Hv Hm].
  destruct (capacity_bounds (H:=sample_library) 100001 1 100000 ∅ 0) as [Hhi _].
  destruct (capacity_bounds (H:=sample_library) 0 1 100000 ∅ 0) as [Hlo _].
  assert (validate_capacity 100000 1 100000 = Ok true) as Hok
    by (apply Hv; lia).
  split; [exact Hb|]. split; [exact Hok|].
  split; [exact (proj2 (proj1 (Hm Hb)) Hok)|].
  split; [intros Hx%Hhi; lia | intros Hx%Hlo; lia].
Defined.

(** X17. [sanitize_string] returns exactly the trimmed input, and does so
    exactly when the input is not made of whitespace only and the trimmed
    length is within [max_length]; a [max_length] of [None] or of 0 sets no
    bound. What it returns it accepts again unchanged. *)
Theorem sanitize_string_spec value max_length t :
  (sanitize_string value max_length = Ok t
   ↔ t = strip value ∧ all_space value = false
     ∧ match max_length with
       | Some m => m = 0 ∨ len (strip value) ≤ m
       | None => True
       end)
  ∧ (sanitize_string value max_length = Ok t →
     sanitize_string t max_length = Ok t).
Proof.
  assert (∀ v, negb (str_truthy (strip v)) = all_space v) as Hs.
  { intros v. rewrite -blank_id_all_space /blank_id.
    destruct v; [done|]. done. }
  assert (∀ v t, sanitize_string v max_length = Ok t
                 ↔ t = strip v ∧ all_space v = false
                   ∧ match max_length with
                     | Some m => m = 0 ∨ len (strip v) ≤ m
                     | None => True
                     end) as Hspec.
  { intros v t'. unfold sanitize_string. rewrite Hs.
    destruct (all_space v); [split; [done|by intros (_ & ? & _)]|].
    destruct max_length as [m|].
    - destruct (Z.eqb_spec m 0) as [->|Hm]; simpl.
      + split; [intros [= <-]; auto | by intros (-> & _)].
      + destruct (Z.gtb_spec (len (strip v)) m).
        * split; [done | intros (_ & _ & [?|?]); lia].
        * split; [intros [= <-]; auto | by intros (-> & _)].
    - split; [intros [= <-]; auto | by intros (-> & _)]. }
  split; [apply Hspec|].
  intros (-> & Ha & Hm)%Hspec. apply Hspec. rewrite strip_idem.
  split; [done|]. split; [|done].
  rewrite -Hs strip_idem Hs. exact Ha.
Qed.

Lemma sanitize_string_spec_witness :
  sanitize_string "  Lisbon " (Some 0) = Ok "Lisbon"
  ∧ sanitize_string "Lisbon" (Some 0) = Ok "Lisbon".
Proof.
  assert (sanitize_string "  Lisbon " (Some 0) = Ok "Lisbon") as H
    by (vm_compute; reflexivity).
  split; [exact H|].
  exact (proj2 (sanitize_string_spec "  Lisbon " (Some 0) "Lisbon") H).
Defined.

(** X18. The validators module accepts fewer dates than the record models:
    every date [validate_date_format] of the validators accepts is accepted
    unchanged by the create and update models, while a bare calendar date
    that only the [%Y-%m-%d] parser accepts passes the models and is refused
    by the validators, with the field named [date]. *)
Theorem validators_date_stricter_than_models `{!Library} d :
  (validate_date_format d = Ok true →
   EventBase.validate_date_format d = inr d
   ∧ EventUpdate.validate_date_format (Some d) = inr (Some d))
  ∧ (fromisoformat (replace_Z d) = false → strptime_ymd d = true →
     EventBase.validate_date_format d = inr d
     ∧ EventUpdate.validate_date_format (Some d) = inr (Some d)
     ∧ validate_date_format d
       = Raise (ValidationException
                  "Date must be in ISO format (e.g., 2024-06-15T09:00:00Z)"
                  (Some "date"))).
Proof.
  unfold validate_date_format, EventBase.validate_date_format,
    EventUpdate.validate_date_format.
  split.
  - by destruct (fromisoformat (replace_Z d)).
  - by intros -> ->.
Qed.

Lemma validators_date_stricter_than_models_witness :
  fromisoformat (Library:=padded_iso_library) (replace_Z "2024-6-5") = false
  ∧ strptime_ymd (Library:=padded_iso_library) "2024-6-5" = true
  ∧ EventBase.validate_date_format (H:=padded_iso_library) "2024-6-5"
    = inr "2024-6-5"
  ∧ validate_date_format (H:=padded_iso_library) "2024-6-5"
    = Raise (ValidationException
               "Date must be in ISO format (e.g., 2024-06-15T09:00:00Z)"
               (Some "date")).
Proof.
  destruct (validators_date_stricter_than_models (H:=padded_iso_library) "2024-6-5")
    as [_ Hd].
  destruct (Hd eq_refl eq_refl) as (Hm & _ & Hv).
  split; [reflexivity|]. split; [reflexivity|]. split; [exact Hm | exact Hv].
Defined.

(** *** The record invariant *)















(* ===================================================================== *)
(** ** Properties of the configuration *)
(* ===================================================================== *)

Lemma split_comma_free x : comma_free x = true → split_comma x = [x].
Proof.
  induction x as [|c r IH]; [done|]. simpl.
  destruct (Ascii.eqb c ","); [done|]. simpl. intros Hr. by rewrite IH.
Qed.

Lemma split_comma_app x t :
  comma_free x = true →
  split_comma (String.append x (String "," t)) = x :: split_comma t.
Proof.
  induction x as [|c r IH]; [done|]. simpl.
  destruct (Ascii.eqb c ","); [done|]. simpl. intros Hr. by rewrite IH.
Qed.

Lemma split_comma_pieces s : Forall (λ x, comma_free x = true) (split_comma s).
Proof.
  induction s as [|c r IH]; [by repeat constructor|]. simpl.
  destruct (Ascii.eqb c ",") eqn:Hc; [by constructor|].
  destruct (split_comma r) as [|x xs]; [repeat constructor; by rewrite /= Hc|].
  apply Forall_cons in IH as [Hx Hxs]. constructor; [|done]. by rewrite /= Hc.
Qed.

Lemma lstrip_comma_free s : comma_free s = true → comma_free (lstrip s) = true.
Proof.
  induction s as [|c r IH]; [done|]. simpl.
  intros [Hc Hr]%andb_true_iff. destruct (isspace c); [by apply IH|].
  by rewrite /= Hc Hr.
Qed.

Lemma rstrip_comma_free s : comma_free s = true → comma_free (rstrip s) = true.
Proof.
  induction s as [|c r IH]; [done|]. simpl.
  intros [Hc Hr]%andb_true_iff. specialize (IH Hr).
  destruct (rstrip r); [destruct (isspace c); by rewrite /= ?Hc|].
  by rewrite /= Hc.
Qed.

Lemma split_join l :
  l ≠ [] → Forall (λ x, comma_free x = true) l → split_comma (join "," l) = l.
Proof.
  induction l as [|x l IH]; [done|]. intros _ [Hx Hl]%Forall_cons.
  destruct l as [|y l]; [by apply split_comma_free|].
  change (join "," (x :: y :: l))
    with (String.append x (String "," (join "," (y :: l)))).
  rewrite split_comma_app // IH //.
Qed.

(** X20. [parse_cors_origins] on a string: every origin it returns is
    non-empty, trimmed and free of commas, whatever the string; and it
    undoes the joining of such origins with commas, so a list written as
    [a,b,c] is read back as the same list. A list is returned as it is. *)
Theorem parse_cors_origins_spec :
  (∀ s o, o ∈ parse_cors_origins (inl s) →
          o ≠ "" ∧ strip o = o ∧ comma_free o = true)
  ∧ (∀ l, Forall (λ o, o ≠ "" ∧ strip o = o ∧ comma_free o = true) l →
          parse_cors_origins (inl (join "," l)) = l)
  ∧ (∀ l, parse_cors_origins (inr l) = l).
Proof.
  split; [|split; [|done]].
  - intros s o. unfold parse_cors_origins.
    intros (x & -> & [Hx Hin]%list_elem_of_filter)%list_elem_of_fmap.
    split; [by destruct (strip x)|]. split; [apply strip_idem|].
    pose proof (split_comma_pieces s) as Hp. rewrite Forall_forall in Hp.
    apply rstrip_comma_free, lstrip_comma_free, Hp, Hin.
  - intros l Hl. unfold parse_cors_origins.
    destruct l as [|x l]; [done|].
    rewrite split_join //.
    { eapply Forall_impl; [exact Hl|]. by intros o (_ & _ & ?). }
    induction Hl as [|o l' (Hne & Hs & _) _ IH]; [done|].
    rewrite filter_cons_True.
    { rewrite Hs. by destruct o. }
    by rewrite fmap_cons Hs IH.
Qed.

Lemma parse_cors_origins_spec_witness :
  "http://a.test" ∈ parse_cors_origins (inl " http://a.test , ,http://b.test")
  ∧ Forall (λ o, o ≠ "" ∧ strip o = o ∧ comma_free o = true)
      ["http://localhost:3000"; "http://localhost:8080"]
  ∧ parse_cors_origins (inl "http://localhost:3000,http://localhost:8080")
    = ["http://localhost:3000"; "http://localhost:8080"]
  ∧ strip "http://a.test" = "http://a.test".
Proof.
  destruct parse_cors_origins_spec as (Hel & Hrt & _).
  assert ("http://a.test" ∈ parse_cors_origins (inl " http://a.test , ,http://b.test"))
    as Hin by (vm_compute; apply list_elem_of_here).
  assert (Forall (λ o, o ≠ "" ∧ strip o = o ∧ comma_free o = true)
            ["http://localhost:3000"; "http://localhost:8080"]) as Hf
    by (repeat constructor; done).
  split; [exact Hin|]. split; [exact Hf|]. split; [exact (Hrt _ Hf)|].
  exact (proj1 (proj2 (Hel _ _ Hin))).
Defined.

(* ===================================================================== *)
(** ** Properties of the routes *)
(* ===================================================================== *)






Lemma validated_id_not_blank `{!Library} body e id :
  EventCreate.validate body = Ok e → EventCreate.eventId e = Some id →
  blank_id id = false.
Proof.
  intros Hv Hid. apply EventCreate_validate_inv in Hv
    as (_ & _ & _ & _ & _ & _ & _ & Hf).
  rewrite Hid in Hf. apply eventId_field_Some in Hf as (s & _ & -> & Ht).
  rewrite /blank_id strip_idem Ht //.
Qed.

(** X22. Round trip over HTTP: when a body validates as an [EventCreate]
    and the identifier it will be stored under (the one supplied, else the
    generated one) is free, [POST /events] answers 201, and a
    [GET /events/{eventId}] of that identifier on the store it leaves
    answers 200 with the same body. *)
Theorem post_then_get `{!Library} uuid4 utcnow body e st :
  EventCreate.validate body = Ok e →
  fault st = None →
  blank_id uuid4 = false →
  let event_id := default uuid4 (EventCreate.eventId e) in
  items st !! event_id = None →
  let posted := post_events uuid4 utcnow body st in
  status_code (fst posted) = 201
  ∧ get_events_id event_id (snd posted)
    = (mkResponse 200 (content (fst posted)), log GetItem (snd posted)).
Proof.
  intros Hv Hf Hb event_id Hfree posted. subst posted.
  pose proof (validated_id_truthy body e Hv) as Ht.
  assert (blank_id event_id = false) as Hbid.
  { subst event_id. destruct (EventCreate.eventId e) as [id|] eqn:Hid; [|done].
    by eapply validated_id_not_blank. }
  assert (create_event uuid4 utcnow (EventCreate.model_dump e) st
          = (Ok (new_item event_id utcnow e),
             set_items (<[event_id := new_item event_id utcnow e]> (items st))
               (log PutItem st))) as Hc.
  { rewrite create_event_unfold //. fold event_id.
    assert (condition_holds (attribute_not_exists "eventId") (current st event_id) = true)
      as Hh by (by rewrite not_exists_holds Hfree).
    by rewrite (put_item_fresh _ event_id _ _ Hf (new_item_eventId _ _ _) Hh). }
  rewrite /post_events Hv /Routes.create_event Hc /=. split; [done|].
  rewrite /get_events_id /Routes.get_event get_event_ok //.
  rewrite /current /= lookup_insert_eq /= /with_key insert_id;
    [apply new_item_eventId|].
  rewrite bool_decide_eq_false_2 //.
Qed.

Lemma post_then_get_witness :
  EventCreate.validate (H:=sample_library) (sample_body None) = Ok (sample_event None)
  ∧ fault sample_store = None
  ∧ blank_id "3f2b8c1e-uuid" = false
  ∧ items sample_store !! "3f2b8c1e-uuid" = None
  ∧ status_code (fst (post_events (H:=sample_library) "3f2b8c1e-uuid"
                        "2024-02-02T00:00:00Z" (sample_body None) sample_store))
    = 201
  ∧ status_code
      (fst (get_events_id "3f2b8c1e-uuid"
              (snd (post_events (H:=sample_library) "3f2b8c1e-uuid"
                      "2024-02-02T00:00:00Z" (sample_body None) sample_store))))
    = 200.
Proof.
  assert (EventCreate.validate (H:=sample_library) (sample_body None)
          = Ok (sample_event None)) as Hv by (vm_compute; reflexivity).
  assert (items sample_store !! "3f2b8c1e-uuid" = None) as Hfree
    by (vm_compute; reflexivity).
  destruct (post_then_get (H:=sample_library) "3f2b8c1e-uuid"
              "2024-02-02T00:00:00Z" (sample_body None) (sample_event None)
              sample_store Hv eq_refl eq_refl Hfree) as [Hp Hg].
  split; [exact Hv|]. split; [reflexivity|]. split; [reflexivity|].
  split; [exact Hfree|]. split; [exact Hp|]. by rewrite Hg.
Defined.
